(** * Trade lifecycle and P&L engine of tiltedtrades-dev-trades-data

    A shallow embedding of the Python sources

    - [utils/calculations.py]        (notional value),
    - [models/trading_execution.py]  (normaliser, validation and tracker),
    - [utils/historical_context.py]  (history reconciler),
    - [handlers/json_conversion.py]  (batch driver),

    together with the fragment of the Python run time these functions rely
    on: exceptions, [decimal.Decimal], binary64 [float], [str], [int] and
    the stable [sorted].

    Dictionaries keyed by symbols are [gmap string _]; a DynamoDB item and a
    spreadsheet row have a fixed set of attributes and are records whose
    optional attributes are [option] fields. Code that can raise returns a
    [result]; the tracker threads its three mutable dictionaries as an
    explicit state. *)

From Stdlib Require Import ZArith String Ascii List Lia SpecFloat Permutation Sorted.
From stdpp Require Import gmap strings list fin_maps.

Local Open Scope string_scope.
Local Open Scope Z_scope.

(** ** Exceptions *)

Module Py.

Inductive exn :=
| ValueError
| TypeError
| OverflowError
| InvalidOperation.

Inductive result (A : Type) :=
| Ok (a : A)
| Raise (e : exn).
Arguments Ok {A} a.
Arguments Raise {A} e.

Definition bind {A B} (r : result A) (k : A -> result B) : result B :=
  match r with
  | Ok a => k a
  | Raise e => Raise e
  end.

(** [try: r except: h] with a bare [except] clause. *)
Definition catch {A} (r : result A) (h : A) : A :=
  match r with
  | Ok a => a
  | Raise _ => h
  end.

Definition is_ok {A} (r : result A) : bool :=
  match r with Ok _ => true | Raise _ => false end.

End Py.
Export Py.

#[global] Instance result_ret : MRet result := fun A a => Ok a.
#[global] Instance result_bind : MBind result := fun A B k r => bind r k.

(** ** Text *)

Module Text.

(** Text is a sequence of bytes, compared byte by byte; for ASCII text
    this is Python's [str] with its length and its order. *)

Definition chars := list_ascii_of_string.
Definition text := string_of_list_ascii.

(** [sub in s] *)
Fixpoint contains_from (fuel : nat) (sub s : string) : bool :=
  match fuel with
  | O => false
  | S fuel' =>
      if String.prefix sub s then true
      else match s with
           | EmptyString => false
           | String _ s' => contains_from fuel' sub s'
           end
  end.

Definition contains (sub s : string) : bool :=
  contains_from (S (String.length s)) sub s.

Definition is_upper (c : ascii) : bool :=
  (65 <=? nat_of_ascii c)%nat && (nat_of_ascii c <=? 90)%nat.
Definition is_lower (c : ascii) : bool :=
  (97 <=? nat_of_ascii c)%nat && (nat_of_ascii c <=? 122)%nat.

Definition lower_char (c : ascii) : ascii :=
  if is_upper c then ascii_of_nat (nat_of_ascii c + 32) else c.
Definition upper_char (c : ascii) : ascii :=
  if is_lower c then ascii_of_nat (nat_of_ascii c - 32) else c.

Fixpoint smap (f : ascii -> ascii) (s : string) : string :=
  match s with
  | EmptyString => EmptyString
  | String c s' => String (f c) (smap f s')
  end.

(** [s.lower()] and [s.upper()] on ASCII letters; the two tests the sources
    make with them (['E' in value.upper()], [side.lower() == 'sell']) only
    concern ASCII letters. *)
Definition lower : string -> string := smap lower_char.
Definition upper : string -> string := smap upper_char.

(** [s.split(sep)] for a one-character separator: every occurrence splits,
    so the result is never empty. *)
Fixpoint split_aux (sep : ascii) (cur : list ascii) (s : list ascii)
  : list string :=
  match s with
  | [] => [text (rev cur)]
  | c :: s' =>
      if Ascii.eqb c sep then text (rev cur) :: split_aux sep [] s'
      else split_aux sep (c :: cur) s'
  end.

Definition split (sep : ascii) (s : string) : list string :=
  split_aux sep [] (chars s).

(** [s.zfill(width)]: zeros go after a leading sign. *)
Definition zfill (width : nat) (s : string) : string :=
  let pad := text (repeat "0"%char (width - String.length s)) in
  match s with
  | String c s' =>
      if Ascii.eqb c "+" || Ascii.eqb c "-" then String c (pad +:+ s')
      else pad +:+ s
  | EmptyString => pad
  end.

Definition digit_char (d : Z) : ascii := ascii_of_nat (48 + Z.to_nat d).

Fixpoint digits_aux (fuel : nat) (n : Z) (acc : list ascii) : list ascii :=
  match fuel with
  | O => acc
  | S fuel' =>
      if n <? 10 then digit_char n :: acc
      else digits_aux fuel' (n / 10) (digit_char (n mod 10) :: acc)
  end.

(** Decimal digits of a natural number, most significant first. *)
Definition digits (n : Z) : string :=
  text (digits_aux (S (Z.to_nat (Z.log2 n))) n []).

(** [str(n)] for an [int]. *)
Definition str_int (n : Z) : string :=
  if n <? 0 then "-" +:+ digits (- n) else digits n.

Definition is_digit (c : ascii) : bool :=
  (48 <=? nat_of_ascii c)%nat && (nat_of_ascii c <=? 57)%nat.

Definition digit_val (c : ascii) : Z := Z.of_nat (nat_of_ascii c) - 48.

(** Value of a run of digits. *)
Definition digits_val (ds : list ascii) : Z :=
  fold_left (fun acc c => 10 * acc + digit_val c) ds 0.

(** Longest prefix of digits and the rest. *)
Fixpoint span_digits (s : list ascii) : list ascii * list ascii :=
  match s with
  | c :: s' =>
      if is_digit c then
        let '(ds, rest) := span_digits s' in (c :: ds, rest)
      else ([], s)
  | [] => ([], [])
  end.

End Text.

(** ** Numeric literals

    The grammar shared by [float(s)] and [Decimal(s)]: an optional sign, then
    digits with an optional fraction and an optional exponent, or one of the
    words [inf], [infinity], [nan] in any case. Surrounding white space and
    digit-group underscores, which Python also accepts, are not covered:
    such text scans as [LBad]. *)

Module Literal.
Import Text.

Inductive literal :=
| LNum (neg : bool) (int_part frac_part : list ascii) (exp : Z)
| LInf (neg : bool)
| LNaN
| LBad.

Definition scan_sign (s : list ascii) : bool * list ascii :=
  match s with
  | c :: r =>
      if Ascii.eqb c "-" then (true, r)
      else if Ascii.eqb c "+" then (false, r)
      else (false, s)
  | [] => (false, [])
  end.

Definition scan_exp (s : list ascii) : option Z :=
  let '(neg, r) := scan_sign s in
  let '(ds, rest) := span_digits r in
  match ds, rest with
  | _ :: _, [] => Some (if neg then - digits_val ds else digits_val ds)
  | _, _ => None
  end.

Definition scan_frac (s : list ascii) : list ascii * list ascii :=
  match s with
  | c :: r => if Ascii.eqb c "." then span_digits r else ([], s)
  | [] => ([], [])
  end.

Definition scan (s : string) : literal :=
  let '(neg, r) := scan_sign (chars s) in
  let w := lower (text r) in
  if String.eqb w "inf" || String.eqb w "infinity" then LInf neg
  else if String.eqb w "nan" then LNaN
  else
    let '(ip, r1) := span_digits r in
    let '(fp, r2) := scan_frac r1 in
    match ip, fp with
    | [], [] => LBad
    | _, _ =>
        match r2 with
        | [] => LNum neg ip fp 0
        | c :: r3 =>
            if Ascii.eqb c "e" || Ascii.eqb c "E" then
              match scan_exp r3 with
              | Some x => LNum neg ip fp x
              | None => LBad
              end
            else LBad
        end
    end.

End Literal.

(** ** [decimal.Decimal]

    A finite decimal is its signed coefficient and exponent, as Python keeps
    it; arithmetic is the exact arithmetic of the decimal module, which
    agrees with Python as long as a result needs no more than the context
    precision (28 significant digits by default). The sign of a zero is not
    kept. Under the default context an invalid operation on infinities
    raises. *)

Module Dec.
Import Text Literal.

Inductive Decimal :=
| DFinite (coef exp : Z)
| DInfinity (neg : bool)
| DNaN.

#[global] Instance Decimal_eq_dec : EqDecision Decimal.
Proof. solve_decision. Defined.

(** [Decimal('0')] and [Decimal('-1')] *)
Definition zero : Decimal := DFinite 0 0.
Definition minus_one : Decimal := DFinite (-1) 0.

(** The decimal of an [int] *)
Definition of_int (n : Z) : Decimal := DFinite n 0.

(** [a * b] *)
Definition mul (a b : Decimal) : result Decimal :=
  match a, b with
  | DNaN, _ | _, DNaN => Ok DNaN
  | DInfinity s, DInfinity t => Ok (DInfinity (xorb s t))
  | DInfinity s, DFinite c _ | DFinite c _, DInfinity s =>
      if c =? 0 then Raise InvalidOperation
      else Ok (DInfinity (xorb s (c <? 0)))
  | DFinite c1 e1, DFinite c2 e2 => Ok (DFinite (c1 * c2) (e1 + e2))
  end.

(** [a + b] *)
Definition add (a b : Decimal) : result Decimal :=
  match a, b with
  | DNaN, _ | _, DNaN => Ok DNaN
  | DInfinity s, DInfinity t =>
      if Bool.eqb s t then Ok (DInfinity s) else Raise InvalidOperation
  | DInfinity s, DFinite _ _ | DFinite _ _, DInfinity s => Ok (DInfinity s)
  | DFinite c1 e1, DFinite c2 e2 =>
      let e := Z.min e1 e2 in
      Ok (DFinite (c1 * 10 ^ (e1 - e) + c2 * 10 ^ (e2 - e)) e)
  end.

(** [int(d)]: truncation toward zero *)
Definition to_int (d : Decimal) : result Z :=
  match d with
  | DFinite c e =>
      Ok (if 0 <=? e then c * 10 ^ e else Z.quot c (10 ^ (- e)))
  | DInfinity _ => Raise OverflowError
  | DNaN => Raise ValueError
  end.

(** [bool(d)] is [negb (is_zero d)]; [d == 0] is [is_zero d]. *)
Definition is_zero (d : Decimal) : bool :=
  match d with
  | DFinite c _ => c =? 0
  | _ => false
  end.

Definition is_finite (d : Decimal) : bool :=
  match d with
  | DFinite _ _ => true
  | _ => false
  end.

(** [Decimal(s)] *)
Definition of_str (s : string) : result Decimal :=
  match scan s with
  | LNum neg ip fp x =>
      let c := digits_val (ip ++ fp) in
      Ok (DFinite (if neg then - c else c) (x - Z.of_nat (length fp)))
  | LInf neg => Ok (DInfinity neg)
  | LNaN => Ok DNaN
  | LBad => Raise InvalidOperation
  end.

Definition zeros (n : Z) : string := text (repeat "0"%char (Z.to_nat n)).

(** [str(d)], following [Decimal.__str__] *)
Definition str (d : Decimal) : string :=
  match d with
  | DNaN => "NaN"
  | DInfinity neg => if neg then "-Infinity" else "Infinity"
  | DFinite c e =>
      let sign := if c <? 0 then "-" else "" in
      let ds := digits (Z.abs c) in
      let len := Z.of_nat (String.length ds) in
      let leftdigits := e + len in
      let dotplace :=
        if (e <=? 0) && (-6 <? leftdigits) then leftdigits else 1 in
      let intpart :=
        if dotplace <=? 0 then "0"
        else if len <=? dotplace then ds +:+ zeros (dotplace - len)
        else substring 0 (Z.to_nat dotplace) ds in
      let fracpart :=
        if dotplace <=? 0 then "." +:+ zeros (- dotplace) +:+ ds
        else if len <=? dotplace then ""
        else "." +:+ substring (Z.to_nat dotplace)
                       (String.length ds - Z.to_nat dotplace) ds in
      let exp :=
        if leftdigits =? dotplace then ""
        else "E" +:+ (if 0 <=? leftdigits - dotplace then "+" else "")
                 +:+ str_int (leftdigits - dotplace) in
      sign +:+ intpart +:+ fracpart +:+ exp
  end.

End Dec.
Export Dec.

(** ** Binary64 [float]

    A float is a [spec_float] of precision 53; conversion from decimal text
    rounds to nearest, ties to even, overflows to infinity and underflows
    to zero, as [float(s)] does. [repr] is the shortest decimal text that
    reads back as the same float, in the layout of Python's [repr]. *)

Module Float.
Import Text Literal.

Definition prec : Z := 53.
Definition emax : Z := 1024.

Definition float := spec_float.

Definition signed (neg : bool) (m : Z) : Z := if neg then - m else m.

(** The float nearest to [coef * 10 ^ exp10], for [0 <= coef]. A negative
    exponent is a division: the quotient is taken with enough extra binary
    digits and made odd when inexact, so that the final rounding sees on
    which side of a midpoint the exact value lies. *)
Definition of_decimal (neg : bool) (coef exp10 : Z) : float :=
  if coef =? 0 then S754_zero neg
  else if 0 <=? exp10 then
    binary_normalize prec emax (signed neg (coef * 10 ^ exp10)) 0 neg
  else
    let k := - exp10 in
    let s := 4 * k + 1100 in
    let num := coef * 2 ^ s in
    let den := 10 ^ k in
    let q := num / den in
    let q' := if num mod den =? 0 then q else Z.lor q 1 in
    binary_normalize prec emax (signed neg q') (- s) neg.

(** [float(s)] *)
Definition of_str (s : string) : result float :=
  match scan s with
  | LNum neg ip fp x =>
      Ok (of_decimal neg (digits_val (ip ++ fp)) (x - Z.of_nat (length fp)))
  | LInf neg => Ok (S754_infinity neg)
  | LNaN => Ok S754_nan
  | LBad => Raise ValueError
  end.

(** [int(f)]: truncation toward zero *)
Definition to_int (f : float) : result Z :=
  match f with
  | S754_zero _ => Ok 0
  | S754_finite neg m e =>
      Ok (signed neg (if 0 <=? e then Zpos m * 2 ^ e else Zpos m / 2 ^ (- e)))
  | S754_infinity _ => Raise OverflowError
  | S754_nan => Raise ValueError
  end.

Definition is_nan (f : float) : bool :=
  match f with S754_nan => true | _ => false end.

Definition is_zero (f : float) : bool :=
  match f with S754_zero _ => true | _ => false end.

Definition float_eqb (f g : float) : bool :=
  match f, g with
  | S754_zero a, S754_zero b => Bool.eqb a b
  | S754_infinity a, S754_infinity b => Bool.eqb a b
  | S754_nan, S754_nan => true
  | S754_finite a m e, S754_finite b n x =>
      Bool.eqb a b && Pos.eqb m n && (e =? x)
  | _, _ => false
  end.

Definition ndigits (n : Z) : Z := Z.of_nat (String.length (digits n)).

(** [num / den] rounded to the nearest integer, ties to even. *)
Definition div_half_even (num den : Z) : Z :=
  let q := num / den in
  let r := num mod den in
  match 2 * r ?= den with
  | Lt => q
  | Gt => q + 1
  | Eq => if Z.even q then q else q + 1
  end.

(** The positive rational [num / den] rounded to an integer multiple of
    [10 ^ p]. *)
Definition round_at (num den p : Z) : Z :=
  if 0 <=? p then div_half_even num (den * 10 ^ p)
  else div_half_even (num * 10 ^ (- p)) den.

(** [x] with [10 ^ x <= num / den < 10 ^ (x + 1)] *)
Definition magnitude (num den : Z) : Z :=
  let x0 := ndigits num - ndigits den in
  let above :=
    if 0 <=? x0 then den * 10 ^ x0 <=? num else den <=? num * 10 ^ (- x0) in
  if above then x0 else x0 - 1.

(** The shortest digits [d] and exponent [p] with [d * 10 ^ p] reading back
    as [f]; [n] is the number of digits tried, 17 always suffice. *)
Fixpoint shortest (fuel : nat) (n : Z) (f : float) (num den x : Z) : Z * Z :=
  let p := x - (n - 1) in
  let d := round_at num den p in
  match fuel with
  | O => (d, p)
  | S fuel' =>
      if float_eqb (of_decimal false d p) f then (d, p)
      else shortest fuel' (n + 1) f num den x
  end.

Fixpoint strip_zeros (fuel : nat) (d p : Z) : Z * Z :=
  match fuel with
  | O => (d, p)
  | S fuel' =>
      if (d mod 10 =? 0) && negb (d =? 0) then strip_zeros fuel' (d / 10) (p + 1)
      else (d, p)
  end.

Definition pad2 (n : Z) : string :=
  if n <? 10 then "0" +:+ digits n else digits n.

(** Layout of the digits [ds] with scientific exponent [x], as [repr]
    prints them. *)
Definition layout (ds : string) (x : Z) : string :=
  let len := Z.of_nat (String.length ds) in
  let decpt := x + 1 in
  if (-4 <? decpt) && (decpt <=? 16) then
    if decpt <=? 0 then "0." +:+ Dec.zeros (- decpt) +:+ ds
    else if len <=? decpt then ds +:+ Dec.zeros (decpt - len) +:+ ".0"
    else substring 0 (Z.to_nat decpt) ds +:+ "." +:+
         substring (Z.to_nat decpt) (String.length ds - Z.to_nat decpt) ds
  else
    substring 0 1 ds +:+
    (if 1 <? len then "." +:+ substring 1 (String.length ds - 1) ds else "") +:+
    "e" +:+ (if x <? 0 then "-" else "+") +:+ pad2 (Z.abs x).

(** [repr(f)], which is also [str(f)] *)
Definition repr (f : float) : string :=
  match f with
  | S754_zero neg => if neg then "-0.0" else "0.0"
  | S754_infinity neg => if neg then "-inf" else "inf"
  | S754_nan => "nan"
  | S754_finite neg m e =>
      let num := if 0 <=? e then Zpos m * 2 ^ e else Zpos m in
      let den := if 0 <=? e then 1 else 2 ^ (- e) in
      let abs := S754_finite false m e in
      let '(d0, p0) := shortest 16 1 abs num den (magnitude num den) in
      let '(d, p) := strip_zeros 20 d0 p0 in
      (if neg then "-" else "") +:+ layout (digits d) (p + ndigits d - 1)
  end.

End Float.

(** ** Dynamically typed values

    The values a spreadsheet cell, a JSON table entry or a DynamoDB
    attribute can hold in the modelled code. *)

Module Value.
Import Text.

Inductive pyvalue :=
| PyNone
| PyInt (n : Z)
| PyFloat (f : Float.float)
| PyStr (s : string)
| PyDec (d : Decimal).

#[global] Instance spec_float_eq_dec : EqDecision spec_float.
Proof. solve_decision. Defined.
#[global] Instance pyvalue_eq_dec : EqDecision pyvalue.
Proof. solve_decision. Defined.

(** [str(v)] *)
Definition py_str (v : pyvalue) : string :=
  match v with
  | PyNone => "None"
  | PyInt n => str_int n
  | PyFloat f => Float.repr f
  | PyStr s => s
  | PyDec d => Dec.str d
  end.

(** [pd.isna(v)] on a scalar *)
Definition isna (v : pyvalue) : bool :=
  match v with
  | PyNone => true
  | PyFloat f => Float.is_nan f
  | PyDec DNaN => true
  | _ => false
  end.

(** [int(s)] for text: an optional sign and digits. *)
Definition int_of_str (s : string) : result Z :=
  let '(neg, r) := Literal.scan_sign (chars s) in
  let '(ds, rest) := span_digits r in
  match ds, rest with
  | _ :: _, [] => Ok (if neg then - digits_val ds else digits_val ds)
  | _, _ => Raise ValueError
  end.

(** [Union[Decimal, str]]: what [parse_decimal] returns. *)
Inductive numtext :=
| NDec (d : Decimal)
| NStr (s : string).

#[global] Instance numtext_eq_dec : EqDecision numtext.
Proof. solve_decision. Defined.

(** [int(x)] *)
Definition numtext_to_int (x : numtext) : result Z :=
  match x with
  | NDec d => Dec.to_int d
  | NStr s => int_of_str s
  end.

(** [not x] *)
Definition numtext_falsy (x : numtext) : bool :=
  match x with
  | NDec d => Dec.is_zero d
  | NStr s => String.eqb s ""
  end.

End Value.
Export Value.

(** ** [sorted(l, key=...)]

    Python's sort is stable, and a stable sort has one possible result;
    it is computed here by insertion from the right. [le a b] is the
    comparison [key(a) <= key(b)]. *)

Module PySort.

Section Sorted.
Context {A : Type} (le : A -> A -> bool).

Fixpoint insort (x : A) (l : list A) : list A :=
  match l with
  | [] => [x]
  | y :: l' => if le x y then x :: y :: l' else y :: insort x l'
  end.

Fixpoint sorted (l : list A) : list A :=
  match l with
  | [] => []
  | x :: l' => insort x (sorted l')
  end.
End Sorted.

End PySort.
Export PySort.

(** ** Notional value ([utils/calculations.py]) *)

Module Calculations.

(** The tick-values table: ticker to contract specification, itself a
    dictionary with an optional ["multiplier"] entry. *)
Abbreviation tick_table := (gmap string (gmap string pyvalue)).

Definition calculate_notional_value (ticker_symbol : string)
    (execution_price : numtext) (position_effect : Z)
    (tick_values_data : tick_table) : Decimal :=
  catch
    (let symbol_data := default ∅ (tick_values_data !! ticker_symbol) in
     if bool_decide (symbol_data = ∅) then Ok Dec.zero
     else
       match symbol_data !! "multiplier" with
       | None | Some PyNone => Ok Dec.zero
       | Some multiplier =>
           m ← Dec.of_str (py_str multiplier);
           price ← match execution_price with
                   | NDec p => Ok p
                   | NStr _ => Raise TypeError
                   end;
           a ← Dec.mul m price;
           effect ← Dec.of_str (py_str (PyInt position_effect));
           b ← Dec.mul a effect;
           Dec.mul b Dec.minus_one
       end)
    Dec.zero.

End Calculations.
Export Calculations.

(** ** Normaliser and tracker ([models/trading_execution.py]) *)

Module TradingExecution.
Import Text.

Record datetime := {
  year : Z; month : Z; day : Z;
  hour : Z; minute : Z; second : Z; microsecond : Z
}.

Definition pad (width : nat) (n : Z) : string := zfill width (digits n).

(** [dt.strftime('%m/%d/%Y')] *)
Definition format_date (dt : option datetime) : string :=
  match dt with
  | None => ""
  | Some d => pad 2 (month d) +:+ "/" +:+ pad 2 (day d) +:+ "/" +:+ pad 4 (year d)
  end.

(** [dt.strftime('%Y-%m-%d')] *)
Definition format_trading_date (dt : option datetime) : string :=
  match dt with
  | None => ""
  | Some d => pad 4 (year d) +:+ "-" +:+ pad 2 (month d) +:+ "-" +:+ pad 2 (day d)
  end.

(** [dt.strftime('%H:%M:%S.%f')[:-3]] *)
Definition format_time (dt : option datetime) : string :=
  match dt with
  | None => ""
  | Some d =>
      pad 2 (hour d) +:+ ":" +:+ pad 2 (minute d) +:+ ":" +:+ pad 2 (second d)
      +:+ "." +:+ pad 3 (microsecond d / 1000)
  end.

Definition apply_symbol_conversion (symbol : string)
    (conversion_table : gmap string string) : string :=
  if String.eqb symbol "" || bool_decide (conversion_table = ∅) then symbol
  else default symbol (conversion_table !! symbol).

Definition parse_decimal (value : pyvalue) : numtext :=
  catch
    (if isna value then Ok (NDec Dec.zero)
     else
       match value with
       | PyInt _ | PyFloat _ =>
           d ← Dec.of_str (py_str value); Ok (NDec d)
       | PyStr s =>
           if contains "E" (upper s) then
             f ← Float.of_str s;
             d ← Dec.of_str (py_str (PyFloat f));
             Ok (NDec d)
           else
             Ok (catch (d ← Dec.of_str s; Ok (NDec d)) (NStr s))
       | PyDec d => Ok (NDec d)
       | PyNone => Ok (NDec Dec.zero)
       end)
    (match value with
     | PyStr s => NStr s
     | _ => NDec Dec.zero
     end).

Definition calculate_position_effect (side : string) (quantity : numtext)
  : result numtext :=
  if String.eqb (lower side) "sell" then
    match quantity with
    | NDec q => d ← Dec.mul q Dec.minus_one; Ok (NDec d)
    | NStr _ => Raise TypeError
    end
  else Ok quantity.

(** One spreadsheet row as [from_original_data] reads it: every field is
    the value of [row_dict.get(column, default)], the two dates already
    through [parse_date] (pandas does that parsing) and the three text
    columns already through [str]. Columns that are only copied to the
    output (description, exchange, order type, contract expiration, the
    confirmation and order ids, account) are left out. *)
Record row_dict := {
  Orders_Transactions_TransactionID : pyvalue;
  Orders_Transactions_When_Ms : option datetime;
  Orders_OrderFills_TradeDate : option datetime;
  Orders_OrderFills_SymbolCommodity : string;
  Orders_OrderFills_Side : string;
  Orders_OrderFills_Size : pyvalue;
  Orders_OrderFills_Price : pyvalue
}.

(** The dataclass, without the copied columns, [WeekNum] and [Fees]. *)
Record TradingExecution := {
  DBKey : numtext;
  Date : string;
  Time : string;
  TradingDay : string;
  TickerConversion : string;
  CQGSymbol : string;
  Side : string;
  Quantity : numtext;
  PositionEffect : numtext;
  ExecutionPrice : numtext;
  NotionalValue : Decimal;
  PositionQty : Z;
  Status : string;
  PnLPerPosition : option Decimal
}.

(** The three dictionaries [from_original_data] mutates. *)
Record tracker := {
  historical_positions : gmap string Z;
  symbol_occurrence_tracker : gmap string Z;
  pnl_accumulators : gmap string Decimal
}.

Definition fresh_tracker : tracker :=
  {| historical_positions := ∅;
     symbol_occurrence_tracker := ∅;
     pnl_accumulators := ∅ |}.

(** The status text of lines 278-284. *)
Definition status_text (is_first_occurrence : bool)
    (current_position_qty new_position_qty : Z) (ticker_conversion : string)
  : string :=
  if is_first_occurrence then "To Open " +:+ ticker_conversion
  else if new_position_qty =? 0 then "To Close " +:+ ticker_conversion
  else if current_position_qty =? 0 then "To Open " +:+ ticker_conversion
  else "".

(** [from_original_data]: the new state of the three dictionaries and the
    instance, or the exception the row raised. The two [int(...)]
    conversions come before any dictionary is written; the accumulator sum
    comes after the position and the occurrence entry are written, so a
    row that raises there leaves these two writes behind.
    [calculate_commission] is not modelled: it catches its own exceptions
    and its argument [int(quantity)] raises only when
    [int(position_effect)] does. *)
Definition from_original_data (row : row_dict)
    (symbol_conversion : gmap string string) (tick_values : tick_table)
    (st : tracker) : tracker * result TradingExecution :=
  let when_date := Orders_Transactions_When_Ms row in
  let trade_date := Orders_OrderFills_TradeDate row in
  let date_str := format_date when_date in
  let time_str := format_time when_date in
  let trading_day := format_trading_date trade_date in
  let cqg_symbol := Orders_OrderFills_SymbolCommodity row in
  let ticker_conversion := apply_symbol_conversion cqg_symbol symbol_conversion in
  let quantity := parse_decimal (Orders_OrderFills_Size row) in
  let execution_price := parse_decimal (Orders_OrderFills_Price row) in
  let side := Orders_OrderFills_Side row in
  match
    (position_effect ← calculate_position_effect side quantity;
     effect ← numtext_to_int position_effect;
     Ok (position_effect, effect))
  with
  | Raise e => (st, Raise e)
  | Ok (position_effect, effect) =>
      let db_key := parse_decimal (Orders_Transactions_TransactionID row) in
      let notional_value :=
        calculate_notional_value ticker_conversion execution_price effect
          tick_values in
      let is_first_occurrence :=
        bool_decide (symbol_occurrence_tracker st !! cqg_symbol = None) in
      let occurrences :=
        if is_first_occurrence
        then <[cqg_symbol := 1]> (symbol_occurrence_tracker st)
        else symbol_occurrence_tracker st in
      let current_position_qty :=
        default 0 (historical_positions st !! cqg_symbol) in
      let new_position_qty := current_position_qty + effect in
      let positions := <[cqg_symbol := new_position_qty]> (historical_positions st) in
      let status :=
        status_text is_first_occurrence current_position_qty new_position_qty
          ticker_conversion in
      match
        Dec.add (default Dec.zero (pnl_accumulators st !! ticker_conversion))
          notional_value
      with
      | Raise e =>
          ({| historical_positions := positions;
              symbol_occurrence_tracker := occurrences;
              pnl_accumulators := pnl_accumulators st |}, Raise e)
      | Ok accumulated =>
          let closes := contains "To Close" status && (new_position_qty =? 0) in
          let pnl_per_position := if closes then Some accumulated else None in
          let accumulators :=
            if closes
            then <[ticker_conversion := Dec.zero]>
                   (<[ticker_conversion := accumulated]> (pnl_accumulators st))
            else <[ticker_conversion := accumulated]> (pnl_accumulators st) in
          ({| historical_positions := positions;
              symbol_occurrence_tracker := occurrences;
              pnl_accumulators := accumulators |},
           Ok {| DBKey := db_key;
                 Date := date_str;
                 Time := time_str;
                 TradingDay := trading_day;
                 TickerConversion := ticker_conversion;
                 CQGSymbol := cqg_symbol;
                 Side := side;
                 Quantity := quantity;
                 PositionEffect := position_effect;
                 ExecutionPrice := execution_price;
                 NotionalValue := notional_value;
                 PositionQty := new_position_qty;
                 Status := status;
                 PnLPerPosition := pnl_per_position |})
      end
  end.

Definition is_valid (e : TradingExecution) : bool :=
  if numtext_falsy (DBKey e) then false
  else if String.eqb (Date e) "" || String.eqb (Time e) ""
          || String.eqb (TradingDay e) "" then false
  else if String.eqb (CQGSymbol e) "" || String.eqb (Side e) "" then false
  else true.

End TradingExecution.
Export TradingExecution.

(** ** History reconciler ([utils/historical_context.py]) *)

Module HistoricalContext.
Import Text.

(** A persisted execution, with the attribute types [to_dynamodb_dict]
    writes: numbers come back from DynamoDB as [Decimal], the status, the
    symbol, date and time as text. [DBKey] keeps its dynamic type because
    the code discriminates on it. An absent attribute is [None]. *)
Record trade := {
  t_userId : string;
  t_DBKey : option pyvalue;
  t_CQGSymbol : option string;
  t_PositionEffect : option Decimal;
  t_NotionalValue : option Decimal;
  t_PositionQty : option Decimal;
  t_Status : option string;
  t_Date : option string;
  t_Time : option string
}.

#[global] Instance trade_eq_dec : EqDecision trade.
Proof. solve_decision. Defined.

(** The table is the list of its items; a query returns the items of the
    user's partition (and symbol). Query failures are not modelled. *)
Definition query_user (table : list trade) (user_id : string) : list trade :=
  filter (fun t => t_userId t = user_id) table.

Definition query_user_symbol (table : list trade) (user_id symbol : string)
  : list trade :=
  filter (fun t => t_userId t = user_id ∧ t_CQGSymbol t = Some symbol) table.

Definition get_all_historical_trades (table : list trade) (user_id : string)
  : list trade :=
  if String.eqb user_id "" then [] else query_user table user_id.

Definition _parse_date_for_sort (date_str : string) : string :=
  if String.eqb date_str "" then "1900-01-01"
  else if contains "-" date_str
          && (String.length (hd "" (split "-" date_str)) =? 4)%nat
  then hd "" (split " " date_str)
  else
    let fallthrough := date_str in
    if contains "/" date_str then
      match split "/" (hd "" (split " " date_str)) with
      | [p0; p1; p2] => p2 +:+ "-" +:+ zfill 2 p0 +:+ "-" +:+ zfill 2 p1
      | _ => fallthrough
      end
    else fallthrough.

(** The [try] block of [_parse_dbkey_for_sort]. *)
Definition parse_dbkey (dbkey : pyvalue) : result Z :=
  match dbkey with
  | PyDec d => Dec.to_int d
  | PyInt n => Ok n
  | PyFloat f => Float.to_int f
  | PyStr s => f ← Float.of_str s; Float.to_int f
  | PyNone => Ok 0
  end.

(** [_parse_dbkey_for_sort]; every exception gives 0. *)
Definition _parse_dbkey_for_sort (dbkey : pyvalue) : Z :=
  catch (parse_dbkey dbkey) 0.

Definition _parse_time_for_sort (time_str : string) : string :=
  if String.eqb time_str "" then "00:00:00.000"
  else if contains " " time_str then nth 1 (split " " time_str) ""
  else time_str.

(** The two sort keys and their orders. *)
Definition dbkey_sort_key (x : trade) : Z :=
  _parse_dbkey_for_sort (default (PyInt 0) (t_DBKey x)).

Definition date_time_sort_key (x : trade) : string * string :=
  (_parse_date_for_sort (default "" (t_Date x)),
   _parse_time_for_sort (default "" (t_Time x))).

Definition dbkey_le (a b : trade) : bool :=
  dbkey_sort_key a <=? dbkey_sort_key b.

(** Tuples compare lexicographically, text by code points. *)
Definition pair_le (a b : string * string) : bool :=
  String.ltb (fst a) (fst b)
  || (String.eqb (fst a) (fst b) && String.leb (snd a) (snd b)).

Definition date_time_le (a b : trade) : bool :=
  pair_le (date_time_sort_key a) (date_time_sort_key b).

Definition has_dbkey (trades : list trade) : bool :=
  existsb (fun t => bool_decide (is_Some (t_DBKey t))) trades.

(** Neither key function raises, so the handler that returns the input
    unsorted is never entered. *)
Definition sort_trades_chronologically (trades : list trade) : list trade :=
  if has_dbkey trades then sorted dbkey_le trades
  else sorted date_time_le trades.

(** The backward loop of [_get_trades_since_last_close]: [n] is one more
    than the index about to be examined. *)
Fixpoint scan_last_close (sorted_trades : list trade) (n : nat)
  : result (option nat) :=
  match n with
  | O => Ok None
  | S i =>
      match sorted_trades !! i with
      | None => Ok None
      | Some trade =>
          match t_PositionQty trade with
          | None => scan_last_close sorted_trades i
          | Some q =>
              position_qty ← Dec.to_int q;
              if (position_qty =? 0)
                 && contains "To Close" (default "" (t_Status trade))
              then Ok (Some i)
              else scan_last_close sorted_trades i
          end
      end
  end.

Definition _get_trades_since_last_close (sorted_trades : list trade)
  : result (list trade) :=
  match sorted_trades with
  | [] => Ok []
  | _ =>
      let has_position_qty :=
        existsb (fun t => bool_decide (is_Some (t_PositionQty t)))
          sorted_trades in
      if negb has_position_qty then Ok sorted_trades
      else
        last_close_index ← scan_last_close sorted_trades (length sorted_trades);
        match last_close_index with
        | None => Ok sorted_trades
        | Some i => Ok (drop (S i) sorted_trades)
        end
  end.

(** The loop over the symbols of the batch. *)
Fixpoint relevant_trades (table : list trade) (user_id : string)
    (symbols : list string) (all_relevant_trades : list trade)
  : result (list trade) :=
  match symbols with
  | [] => Ok all_relevant_trades
  | symbol :: rest =>
      let symbol_trades := query_user_symbol table user_id symbol in
      let sorted_symbol_trades := sort_trades_chronologically symbol_trades in
      relevant ← _get_trades_since_last_close sorted_symbol_trades;
      relevant_trades table user_id rest (all_relevant_trades ++ relevant)
  end.

Definition get_relevant_trades_for_symbols (table : list trade)
    (user_id : string) (symbols : list string) : list trade :=
  if String.eqb user_id "" then []
  else catch (relevant_trades table user_id symbols [])
             (get_all_historical_trades table user_id).

Fixpoint running_positions (positions : gmap string Z)
    (sorted_trades : list trade) : result (gmap string Z) :=
  match sorted_trades with
  | [] => Ok positions
  | trade :: rest =>
      let symbol := default "" (t_CQGSymbol trade) in
      position_effect ←
        match t_PositionEffect trade with
        | None => Ok 0
        | Some d => Dec.to_int d
        end;
      running_positions
        (if String.eqb symbol "" then positions
         else <[symbol := default 0 (positions !! symbol) + position_effect]>
                positions)
        rest
  end.

Definition calculate_running_positions (sorted_trades : list trade)
  : result (gmap string Z) :=
  running_positions ∅ sorted_trades.

(** The conversion of a [DBKey] inside the filter loop. *)
Definition dbkey_to_int (dbkey : pyvalue) : result Z :=
  match dbkey with
  | PyDec d => Dec.to_int d
  | PyStr s => f ← Float.of_str s; Float.to_int f
  | PyInt n => Ok n
  | PyFloat f => Float.to_int f
  | PyNone => Raise TypeError
  end.

(** One turn of the filter loop: whether the trade is kept. Only
    [ValueError] and [TypeError] are caught there. *)
Definition keep_trade (exclude_dbkeys : gset string) (max_dbkey : option Z)
    (trade : trade) : result bool :=
  let dbkey := default PyNone (t_DBKey trade) in
  let dbkey_str := py_str dbkey in
  if bool_decide (exclude_dbkeys ≠ ∅) && bool_decide (dbkey_str ∈ exclude_dbkeys)
  then Ok false
  else
    match max_dbkey, dbkey with
    | None, _ | _, PyNone => Ok true
    | Some m, _ =>
        match dbkey_to_int dbkey with
        | Ok n => Ok (negb (m <=? n))
        | Raise ValueError | Raise TypeError => Ok true
        | Raise e => Raise e
        end
    end.

Fixpoint filter_trades (exclude_dbkeys : gset string) (max_dbkey : option Z)
    (all_trades : list trade) : result (list trade) :=
  match all_trades with
  | [] => Ok []
  | trade :: rest =>
      keep ← keep_trade exclude_dbkeys max_dbkey trade;
      filtered ← filter_trades exclude_dbkeys max_dbkey rest;
      Ok (if keep : bool then trade :: filtered else filtered)
  end.

Record context := {
  trades : list trade;
  positions : gmap string Z
}.

Definition empty_context : context := {| trades := []; positions := ∅ |}.

Definition build_historical_context (table : list trade) (user_id : string)
    (symbols_in_batch : list string) (exclude_dbkeys : gset string)
    (max_dbkey : option Z) : context :=
  if String.eqb user_id "" then empty_context
  else
    let all_trades :=
      match symbols_in_batch with
      | _ :: _ => get_relevant_trades_for_symbols table user_id symbols_in_batch
      | [] => get_all_historical_trades table user_id
      end in
    catch
      (filtered_trades ← filter_trades exclude_dbkeys max_dbkey all_trades;
       match filtered_trades with
       | [] => Ok empty_context
       | _ =>
           let sorted_trades := sort_trades_chronologically filtered_trades in
           positions ← calculate_running_positions sorted_trades;
           Ok {| trades := sorted_trades; positions := positions |}
       end)
      empty_context.

Definition calculate_position_qty_for_trade (cqg_symbol : string)
    (position_effect : Z) (current_positions : gmap string Z)
  : gmap string Z * Z :=
  let current_qty := default 0 (current_positions !! cqg_symbol) in
  let new_qty := current_qty + position_effect in
  (<[cqg_symbol := new_qty]> current_positions, new_qty).

Definition calculate_status_for_trade (cqg_symbol ticker_conversion : string)
    (position_qty : Z) (current_positions : gmap string Z)
    (is_first_occurrence : bool) : string :=
  if is_first_occurrence then "To Open " +:+ ticker_conversion
  else if position_qty =? 0 then "To Close " +:+ ticker_conversion
  else
    let previous_qty := default 0 (current_positions !! cqg_symbol) in
    if previous_qty =? 0 then "To Open " +:+ ticker_conversion
    else "".

End HistoricalContext.
Export HistoricalContext.

(** ** Batch driver ([handlers/json_conversion.py]) *)

Module JsonConversion.

(** The frame of the batch, by what [convert_to_json] reads from it
    (pandas computes these): the rows in the order
    [df.sort_values('Orders_Transactions_TransactionID').iterrows()] gives
    them, the distinct symbols, the transaction ids as text and the least
    transaction id. *)
Record DataFrame := {
  df_rows : list row_dict;
  unique_symbols : list string;
  current_batch_dbkeys : gset string;
  min_batch_dbkey : option Z
}.

(** The loop over the rows: a row that raises or is not valid adds nothing
    to [json_items], and the loop goes on. *)
Fixpoint process_rows (symbol_conversion : gmap string string)
    (tick_values : tick_table) (st : tracker)
    (json_items : list TradingExecution) (rows : list row_dict)
  : tracker * list TradingExecution :=
  match rows with
  | [] => (st, json_items)
  | row :: rest =>
      let '(st', r) := from_original_data row symbol_conversion tick_values st in
      match r with
      | Ok execution =>
          if is_valid execution
          then process_rows symbol_conversion tick_values st'
                 (json_items ++ [execution]) rest
          else process_rows symbol_conversion tick_values st' json_items rest
      | Raise _ => process_rows symbol_conversion tick_values st' json_items rest
      end
  end.

(** The state the loop starts from. *)
Definition initial_tracker (historical_context : context) : tracker :=
  {| historical_positions := positions historical_context;
     symbol_occurrence_tracker := (fun _ => 1) <$> positions historical_context;
     pnl_accumulators := ∅ |}.

(** [convert_to_json]: [None] is the failure result, [Some items] the
    success result with its [data]. The items are the instances before
    [to_dict] renders them. *)
Definition convert_to_json (table : list trade) (user_id : string)
    (df : DataFrame) (symbol_conversion : gmap string string)
    (tick_values : tick_table) : option (list TradingExecution) :=
  if String.eqb user_id "" then None
  else
    match df_rows df with
    | [] => None
    | _ =>
        let historical_context :=
          build_historical_context table user_id (unique_symbols df)
            (current_batch_dbkeys df) (min_batch_dbkey df) in
        Some (snd (process_rows symbol_conversion tick_values
                     (initial_tracker historical_context) [] (df_rows df)))
    end.

End JsonConversion.
Export JsonConversion.

(** ** Vocabulary of the specification *)

Module Spec.

(** Numerical equality of decimals, Python's [==]. *)
Definition dec_eqb (a b : Decimal) : bool :=
  match a, b with
  | DFinite c1 e1, DFinite c2 e2 =>
      let e := Z.min e1 e2 in
      c1 * 10 ^ (e1 - e) =? c2 * 10 ^ (e2 - e)
  | DInfinity s, DInfinity t => Bool.eqb s t
  | _, _ => false
  end.

(** The sum of decimals in order, from [Decimal('0')]. *)
Definition dec_sum (l : list Decimal) : result Decimal :=
  foldl (fun acc d => a ← acc; Dec.add a d) (Ok Dec.zero) l.

(** The lifecycle rules in the order of section 4.4 of the specification. *)
Inductive lifecycle := Open | Close | Continue.

Definition lifecycle_rule (seen_before : bool) (position_qty new_qty : Z)
  : lifecycle :=
  if negb seen_before then Open
  else if new_qty =? 0 then Close
  else if position_qty =? 0 then Open
  else Continue.

(** The status text that stands for a lifecycle status. *)
Definition lifecycle_text (l : lifecycle) (ticker : string) : string :=
  match l with
  | Open => "To Open " +:+ ticker
  | Close => "To Close " +:+ ticker
  | Continue => ""
  end.

(** A persisted execution that closed a position: quantity 0 after it and
    a closing status. *)
Definition is_close (t : trade) : bool :=
  match t_PositionQty t with
  | Some q =>
      match Dec.to_int q with Ok z => z =? 0 | Raise _ => false end
      && Text.contains "To Close" (default "" (t_Status t))
  | None => false
  end.

(** The conversions a row goes through before the tracker writes anything:
    the truncated position effect, or the exception that fails the row. *)
Definition row_effect (row : row_dict) : result Z :=
  position_effect ←
    calculate_position_effect (Orders_OrderFills_Side row)
      (parse_decimal (Orders_OrderFills_Size row));
  numtext_to_int position_effect.




(** What the loop over the rows does with each row, in order. *)
Fixpoint row_results (symbol_conversion : gmap string string)
    (tick_values : tick_table) (st : tracker) (rows : list row_dict)
  : list (result TradingExecution) :=
  match rows with
  | [] => []
  | row :: rest =>
      let '(st', r) := from_original_data row symbol_conversion tick_values st in
      r :: row_results symbol_conversion tick_values st' rest
  end.

(** The instance a row result contributes to the output, if any. *)
Definition emitted (r : result TradingExecution) : option TradingExecution :=
  match r with
  | Ok e => if is_valid e then Some e else None
  | Raise _ => None
  end.

(** The tracker after the loop has gone through [rows]. *)
Definition state_after (symbol_conversion : gmap string string)
    (tick_values : tick_table) (st : tracker) (rows : list row_dict) : tracker :=
  foldl (fun st row => fst (from_original_data row symbol_conversion tick_values st))
    st rows.

(** A position quantity DynamoDB can hold: a finite number. *)
Definition finite_qty (t : trade) : Prop :=
  forall q, t_PositionQty t = Some q -> Dec.is_finite q = true.

End Spec.
Export Spec.

(** ** Example data *)

Module Examples.

Definition fill_time : option datetime :=
  Some {| year := 2024; month := 3; day := 5;
          hour := 9; minute := 30; second := 1; microsecond := 123456 |}.

(** A spreadsheet row for the symbol MES. *)
Definition fill (id : Z) (side : string) (size price : pyvalue) : row_dict :=
  {| Orders_Transactions_TransactionID := PyInt id;
     Orders_Transactions_When_Ms := fill_time;
     Orders_OrderFills_TradeDate := fill_time;
     Orders_OrderFills_SymbolCommodity := "MES";
     Orders_OrderFills_Side := side;
     Orders_OrderFills_Size := size;
     Orders_OrderFills_Price := price |}.

(** A persisted execution of user [u] for the symbol MES. *)
Definition persisted (id effect : Z) (notional : Decimal) (qty : Z)
    (status : string) : trade :=
  {| t_userId := "u";
     t_DBKey := Some (PyDec (DFinite id 0));
     t_CQGSymbol := Some "MES";
     t_PositionEffect := Some (DFinite effect 0);
     t_NotionalValue := Some notional;
     t_PositionQty := Some (DFinite qty 0);
     t_Status := Some status;
     t_Date := Some "03/05/2024";
     t_Time := Some "09:30:01.123" |}.

Definition mes_ticks : tick_table := {[ "MES" := {[ "multiplier" := PyInt 5 ]} ]}.

(** Bought 2 at 100 in an earlier batch: the position is open. *)
Definition opening_fill : trade :=
  persisted 1 2 (DFinite (-1000) 0) 2 "To Open MES".

(** The batch that sells the 2 at 110. *)
Definition closing_batch : DataFrame :=
  {| df_rows := [fill 2 "Sell" (PyInt 2) (PyInt 110)];
     unique_symbols := ["MES"];
     current_batch_dbkeys := {["2"]};
     min_batch_dbkey := Some 2 |}.

(** The closing fill as the first run persists it. *)
Definition closing_fill : trade :=
  persisted 2 (-2) (DFinite 1100 0) 0 "To Close MES".


Definition adding_fill : trade := persisted 2 1 (DFinite (-525) 0) 3 "".

(** A record without position quantity, after a closing one. *)
Definition bare_fill : trade :=
  {| t_userId := "u";
     t_DBKey := Some (PyDec (DFinite 3 0));
     t_CQGSymbol := Some "MES";
     t_PositionEffect := Some (DFinite 1 0);
     t_NotionalValue := None;
     t_PositionQty := None;
     t_Status := None;
     t_Date := Some "03/06/2024";
     t_Time := Some "09:30:01.123" |}.

End Examples.

(** * More of the code *)

(** ** Commissions ([utils/calculations.py]) *)

Module Commissions.

(** The commissions table as [calculate_commission] walks it:
    broker, then ["rates"], then ticker, then ["tiers"], then tier to rate.
    Entries of other shapes, which the function never reads, are left
    out. *)
Abbreviation commission_table :=
  (gmap string (gmap string (gmap string (gmap string (gmap string pyvalue))))).


End Commissions.
Export Commissions.

(** ** Sequences ([utils/historical_context.py]) *)

Module Sequences.

(** The attributes of a persisted execution the sequence functions read. *)
Record sequenced := {
  q_Status : option string;
  q_TickerConversion : option string;
  q_Sequence : option pyvalue
}.

Fixpoint sequence_counters (counters : gmap string Z)
    (sorted_trades : list sequenced) : gmap string Z :=
  match sorted_trades with
  | [] => counters
  | trade :: rest =>
      let status := default "" (q_Status trade) in
      let ticker := default "" (q_TickerConversion trade) in
      sequence_counters
        (if negb (String.eqb ticker "") && Text.contains "To Open" status
         then <[ticker := default 0 (counters !! ticker) + 1]> counters
         else counters)
        rest
  end.

Definition _calculate_sequence_counters (sorted_trades : list sequenced)
  : gmap string Z :=
  sequence_counters ∅ sorted_trades.

(** [s.rsplit(sep, 1)] when [sep] occurs in [s]: the text before and
    after the last occurrence. *)
Fixpoint rsplit_chars (sep : ascii) (s : list ascii)
  : option (list ascii * list ascii) :=
  match s with
  | [] => None
  | c :: r =>
      match rsplit_chars sep r with
      | Some (before, after) => Some (c :: before, after)
      | None => if Ascii.eqb c sep then Some ([], r) else None
      end
  end.

Definition rsplit (sep : ascii) (s : string) : option (string * string) :=
  match rsplit_chars sep (Text.chars s) with
  | Some (before, after) => Some (Text.text before, Text.text after)
  | None => None
  end.

(** The [try] block of [_get_max_sequence_numbers]: ticker and number of
    a sequence text [TICKER-N], or nothing when the text has no dash or
    the number does not read as an [int]. *)
Definition parse_sequence (sequence : string) : option (string * Z) :=
  if Text.contains "-" sequence then
    match rsplit "-" sequence with
    | Some (ticker, seq_num_str) =>
        match int_of_str seq_num_str with
        | Ok seq_num => Some (ticker, seq_num)
        | Raise _ => None
        end
    | None => None
    end
  else None.

Fixpoint max_sequences (max_sequences_so_far : gmap string Z)
    (trades : list sequenced) : gmap string Z :=
  match trades with
  | [] => max_sequences_so_far
  | trade :: rest =>
      max_sequences
        (match default (PyStr "") (q_Sequence trade) with
         | PyStr sequence =>
             if String.eqb sequence "" then max_sequences_so_far
             else
               match parse_sequence sequence with
               | Some (ticker, seq_num) =>
                   match max_sequences_so_far !! ticker with
                   | Some current =>
                       if current <? seq_num
                       then <[ticker := seq_num]> max_sequences_so_far
                       else max_sequences_so_far
                   | None => <[ticker := seq_num]> max_sequences_so_far
                   end
               | None => max_sequences_so_far
               end
         | _ => max_sequences_so_far
         end)
        rest
  end.

Definition _get_max_sequence_numbers (trades : list sequenced)
  : gmap string Z :=
  max_sequences ∅ trades.

Definition calculate_sequence_for_trade (ticker_conversion status : string)
    (sequence_counters : gmap string Z) : gmap string Z * string :=
  let counters :=
    if Text.contains "To Open" status
    then <[ticker_conversion :=
             default 0 (sequence_counters !! ticker_conversion) + 1]>
           sequence_counters
    else sequence_counters in
  let count := default 0 (counters !! ticker_conversion) in
  (counters, ticker_conversion +:+ "-" +:+ Text.str_int count).

End Sequences.
Export Sequences.

(** ** Writing an execution ([models/trading_execution.py]) *)

Module Persist.

(** The item [to_dynamodb_dict] builds, for the modelled fields: numbers
    that are Python [int]s become decimals, an unset P&L is left out, and
    [executionId] is added. *)
Record dynamodb_item := {
  i_DBKey : numtext;
  i_Date : string;
  i_Time : string;
  i_TradingDay : string;
  i_TickerConversion : string;
  i_CQGSymbol : string;
  i_Side : string;
  i_Quantity : numtext;
  i_PositionEffect : numtext;
  i_ExecutionPrice : numtext;
  i_NotionalValue : Decimal;
  i_PositionQty : Decimal;
  i_Status : string;
  i_PnLPerPosition : option Decimal;
  i_executionId : string
}.

Definition to_dynamodb_dict (e : TradingExecution) : result dynamodb_item :=
  position_qty ← Dec.of_str (py_str (PyInt (PositionQty e)));
  key ← numtext_to_int (DBKey e);
  Ok {| i_DBKey := DBKey e;
        i_Date := Date e;
        i_Time := Time e;
        i_TradingDay := TradingDay e;
        i_TickerConversion := TickerConversion e;
        i_CQGSymbol := CQGSymbol e;
        i_Side := Side e;
        i_Quantity := Quantity e;
        i_PositionEffect := PositionEffect e;
        i_ExecutionPrice := ExecutionPrice e;
        i_NotionalValue := NotionalValue e;
        i_PositionQty := position_qty;
        i_Status := Status e;
        i_PnLPerPosition := PnLPerPosition e;
        i_executionId := Text.str_int key |}.

(** [transform_dataframe]: every row goes through [from_original_data]
    with the conversion table only, so with an empty tick table and three
    new dictionaries; nothing is caught, so a row that raises ends the
    whole transformation. *)
Fixpoint transform_rows (symbol_conversion : gmap string string)
    (items : list dynamodb_item) (rows : list row_dict)
  : result (list dynamodb_item) :=
  match rows with
  | [] => Ok items
  | row :: rest =>
      execution ← snd (from_original_data row symbol_conversion ∅ fresh_tracker);
      if is_valid execution then
        item ← to_dynamodb_dict execution;
        transform_rows symbol_conversion (items ++ [item]) rest
      else transform_rows symbol_conversion items rest
  end.

Definition transform_dataframe (rows : list row_dict)
    (symbol_conversion : gmap string string) : result (list dynamodb_item) :=
  transform_rows symbol_conversion [] rows.

End Persist.
Export Persist.

(** ** Reading the sequence functions *)

Module SequenceSpec.

(** The trade opens a position of [ticker]: what
    [_calculate_sequence_counters] counts. *)
Definition opens (ticker : string) (trade : sequenced) : bool :=
  String.eqb (default "" (q_TickerConversion trade)) ticker
  && Text.contains "To Open" (default "" (q_Status trade)).

(** Ticker and number of the trade's sequence, when it has one that
    reads. *)
Definition sequence_of (trade : sequenced) : option (string * Z) :=
  match q_Sequence trade with
  | Some (PyStr sequence) => parse_sequence sequence
  | _ => None
  end.

End SequenceSpec.
Export SequenceSpec.

(** ** Reading the P&L accumulator *)

Module RunSpec.

(** The executions returned for [ticker] since the last one that carried
    a realized P&L, in order: [run] is carried through [results]. *)
Fixpoint open_run_from (ticker : string) (run : list TradingExecution)
    (results : list (result TradingExecution)) : list TradingExecution :=
  match results with
  | [] => run
  | r :: rest =>
      open_run_from ticker
        (match r with
         | Ok e =>
             if String.eqb (TickerConversion e) ticker then
               match PnLPerPosition e with
               | Some _ => []
               | None => run ++ [e]
               end
             else run
         | Raise _ => run
         end)
        rest
  end.

Definition open_run (ticker : string)
    (results : list (result TradingExecution)) : list TradingExecution :=
  open_run_from ticker [] results.

End RunSpec.
Export RunSpec.

(** * Theorems *)

(** ** Printing and reading integers *)

Lemma digit_char_spec d :
  0 <= d < 10 ->
  Text.is_digit (Text.digit_char d) = true
  /\ Text.digit_val (Text.digit_char d) = d.
Proof.
  intros H.
  assert (Hd : d = 0 \/ d = 1 \/ d = 2 \/ d = 3 \/ d = 4 \/ d = 5 \/ d = 6
               \/ d = 7 \/ d = 8 \/ d = 9) by lia.
  repeat (destruct Hd as [-> | Hd]; [split; reflexivity|]).
  subst d. split; reflexivity.
Qed.

Lemma digits_aux_spec fuel : forall n acc,
  (0 < fuel)%nat ->
  0 <= n < 2 ^ Z.of_nat fuel ->
  Forall (fun c => Text.is_digit c = true) acc ->
  Forall (fun c => Text.is_digit c = true) (Text.digits_aux fuel n acc)
  /\ Text.digits_aux fuel n acc <> []
  /\ fold_left (fun a c => 10 * a + Text.digit_val c)
       (Text.digits_aux fuel n acc) 0
     = fold_left (fun a c => 10 * a + Text.digit_val c) acc n.
Proof.
  induction fuel as [|fuel IH]; intros n acc Hfuel Hn Hacc.
  - lia.
  - simpl Text.digits_aux. destruct (Z.ltb_spec n 10) as [Hlt | Hge].
    + destruct (digit_char_spec n) as [Hd Hv]; [lia|].
      split; [constructor; assumption|]. split; [discriminate|].
      simpl. rewrite Hv. reflexivity.
    + assert (Hm : 0 <= n mod 10 < 10) by (apply Z.mod_pos_bound; lia).
      destruct (digit_char_spec (n mod 10) Hm) as [Hd Hv].
      assert (Hq : 1 <= n / 10 < 2 ^ Z.of_nat fuel).
      { split; [apply Z.div_le_lower_bound; lia|].
        apply Z.div_lt_upper_bound; [lia|].
        rewrite Nat2Z.inj_succ, Z.pow_succ_r in Hn by lia. lia. }
      destruct (IH (n / 10) (Text.digit_char (n mod 10) :: acc))
        as (H1 & H2 & H3).
      * destruct fuel; [simpl in Hq; lia | lia].
      * lia.
      * constructor; assumption.
      * split; [exact H1|]. split; [exact H2|].
        rewrite H3. simpl. rewrite Hv. f_equal.
        pose proof (Z.div_mod n 10 ltac:(lia)). lia.
Qed.

Lemma digits_spec n :
  0 <= n ->
  exists ds,
    Text.digits n = Text.text ds
    /\ ds <> []
    /\ Forall (fun c => Text.is_digit c = true) ds
    /\ Text.digits_val ds = n.
Proof.
  intros Hn. unfold Text.digits.
  destruct (digits_aux_spec (S (Z.to_nat (Z.log2 n))) n []) as (H1 & H2 & H3).
  - lia.
  - split; [exact Hn|].
    rewrite Nat2Z.inj_succ, Z2Nat.id by apply Z.log2_nonneg.
    destruct (Z.eq_dec n 0) as [-> | Hne]; [reflexivity|].
    apply Z.log2_spec. lia.
  - constructor.
  - eexists. split; [reflexivity|]. split; [exact H2|]. split; [exact H1|].
    unfold Text.digits_val. rewrite H3. reflexivity.
Qed.

Lemma span_digits_all ds :
  Forall (fun c => Text.is_digit c = true) ds ->
  Text.span_digits ds = (ds, []).
Proof.
  induction 1 as [|c ds Hc Hds IH]; simpl; [reflexivity|].
  rewrite Hc, IH. reflexivity.
Qed.

(** A literal made of digits only scans as that number. *)
Lemma scan_digits neg ds :
  ds <> [] ->
  Forall (fun c => Text.is_digit c = true) ds ->
  Literal.scan (Text.text ((if neg : bool then ["-"%char] else []) ++ ds))
  = Literal.LNum neg ds [] 0.
Proof.
  intros Hne Hds. unfold Literal.scan, Text.chars, Text.text.
  rewrite list_ascii_of_string_of_list_ascii.
  destruct ds as [|c ds]; [contradiction|].
  assert (Hc : Text.is_digit c = true) by (inversion Hds; assumption).
  assert (Hsign : Literal.scan_sign
                    ((if neg then ["-"%char] else []) ++ c :: ds)
                  = (neg, c :: ds)).
  { destruct neg; [reflexivity|]. simpl.
    destruct c as [[] [] [] [] [] [] [] []]; try discriminate Hc; reflexivity. }
  rewrite Hsign.
  assert (Hword : forall w,
             String.eqb (Text.lower (string_of_list_ascii (c :: ds))) w = true ->
             exists c' w', w = String c' w' /\ Text.is_digit c' = true).
  { intros w Hw. apply String.eqb_eq in Hw. subst w. simpl.
    eexists _, _. split; [reflexivity|].
    destruct c as [[] [] [] [] [] [] [] []]; try discriminate Hc; reflexivity. }
  destruct (String.eqb _ "inf") eqn:E1.
  { destruct (Hword _ E1) as (c' & w' & [= <- <-] & Hd). discriminate Hd. }
  destruct (String.eqb _ "infinity") eqn:E2.
  { destruct (Hword _ E2) as (c' & w' & [= <- <-] & Hd). discriminate Hd. }
  destruct (String.eqb _ "nan") eqn:E3.
  { destruct (Hword _ E3) as (c' & w' & [= <- <-] & Hd). discriminate Hd. }
  simpl orb. cbv iota.
  rewrite (span_digits_all (c :: ds) Hds). reflexivity.
Qed.

Lemma str_int_scan n :
  exists ds,
    Literal.scan (Text.str_int n) = Literal.LNum (n <? 0) ds [] 0
    /\ Text.digits_val ds = Z.abs n.
Proof.
  unfold Text.str_int.
  destruct (Z.ltb_spec n 0) as [Hneg | Hpos].
  - destruct (digits_spec (- n)) as (ds & Hd & Hne & Hds & Hv); [lia|].
    exists ds. split; [|lia]. rewrite Hd.
    change ("-" +:+ Text.text ds) with (Text.text (["-"%char] ++ ds)).
    apply (scan_digits true); assumption.
  - destruct (digits_spec n Hpos) as (ds & Hd & Hne & Hds & Hv).
    exists ds. split; [|lia]. rewrite Hd.
    apply (scan_digits false); assumption.
Qed.

(** [Decimal(str(n))] is the integer [n] with exponent 0. *)
Lemma Decimal_of_str_int n : Dec.of_str (Text.str_int n) = Ok (Dec.of_int n).
Proof.
  unfold Dec.of_str. destruct (str_int_scan n) as (ds & -> & Hv).
  rewrite app_nil_r, Hv. unfold Dec.of_int. simpl. f_equal. f_equal.
  destruct (Z.ltb_spec n 0); lia.
Qed.

(** [int(str(n))] is [n]. *)
Lemma int_of_str_int n : int_of_str (Text.str_int n) = Ok n.
Proof.
  unfold int_of_str, Text.str_int.
  destruct (Z.ltb_spec n 0) as [Hneg | Hpos].
  - destruct (digits_spec (- n)) as (ds & Hd & Hne & Hds & Hv); [lia|].
    rewrite Hd. change ("-" +:+ Text.text ds) with (Text.text (["-"%char] ++ ds)).
    unfold Text.chars, Text.text. rewrite list_ascii_of_string_of_list_ascii.
    simpl. rewrite (span_digits_all ds Hds).
    destruct ds; [contradiction|]. f_equal. lia.
  - destruct (digits_spec n Hpos) as (ds & Hd & Hne & Hds & Hv).
    rewrite Hd. unfold Text.chars, Text.text.
    rewrite list_ascii_of_string_of_list_ascii.
    destruct ds as [|c ds]; [contradiction|].
    assert (Hc : Text.is_digit c = true) by (inversion Hds; assumption).
    assert (Hsign : Literal.scan_sign (c :: ds) = (false, c :: ds)).
    { simpl.
      destruct c as [[] [] [] [] [] [] [] []]; try discriminate Hc; reflexivity. }
    rewrite Hsign, (span_digits_all (c :: ds) Hds). f_equal. exact Hv.
Qed.

(** ** The calculator *)



(** ** The tracker, one row at a time *)

(** What a row that yields an instance has done: the fields of the
    instance and the three dictionaries afterwards. *)
Lemma from_original_data_ok row conv ticks st st' e :
  from_original_data row conv ticks st = (st', Ok e) ->
  let symbol := Orders_OrderFills_SymbolCommodity row in
  let ticker := apply_symbol_conversion symbol conv in
  let first := bool_decide (symbol_occurrence_tracker st !! symbol = None) in
  let current := default 0 (historical_positions st !! symbol) in
  exists effect accumulated,
    row_effect row = Ok effect
    /\ numtext_to_int (PositionEffect e) = Ok effect
    /\ CQGSymbol e = symbol
    /\ TickerConversion e = ticker
    /\ PositionQty e = current + effect
    /\ Status e = status_text first current (current + effect) ticker
    /\ Dec.add (default Dec.zero (pnl_accumulators st !! ticker))
         (NotionalValue e) = Ok accumulated
    /\ PnLPerPosition e =
         (if Text.contains "To Close" (Status e) && (PositionQty e =? 0)
          then Some accumulated else None)
    /\ historical_positions st'
       = <[symbol := current + effect]> (historical_positions st)
    /\ symbol_occurrence_tracker st'
       = (if first then <[symbol := 1]> (symbol_occurrence_tracker st)
          else symbol_occurrence_tracker st)
    /\ pnl_accumulators st'
       = (if Text.contains "To Close" (Status e) && (PositionQty e =? 0)
          then <[ticker := Dec.zero]>
                 (<[ticker := accumulated]> (pnl_accumulators st))
          else <[ticker := accumulated]> (pnl_accumulators st)).
Proof.
  intros H symbol ticker first current.
  unfold from_original_data in H. unfold row_effect.
  destruct (calculate_position_effect _ _) as [pe|]; simpl in H; [|congruence].
  destruct (numtext_to_int pe) as [effect|] eqn:Heff; simpl in H; [|congruence].
  destruct (Dec.add _ _) as [acc|] eqn:Hadd; [|congruence].
  injection H as <- <-. simpl.
  exists effect, acc. repeat split; assumption || reflexivity.
Qed.

(** A row that raises before the tracker is touched leaves it as it was. *)
Lemma from_original_data_effect_raises row conv ticks st e :
  row_effect row = Raise e ->
  from_original_data row conv ticks st = (st, Raise e).
Proof.
  unfold row_effect, from_original_data. intros H.
  destruct (calculate_position_effect _ _) as [pe|]; simpl in *.
  - destruct (numtext_to_int pe); simpl in *; congruence.
  - congruence.
Qed.

(** Whatever the outcome, a row whose conversions succeed writes its
    position; a row whose conversions raise writes nothing. *)
Lemma from_original_data_positions row conv ticks st :
  historical_positions (fst (from_original_data row conv ticks st))
  = match row_effect row with
    | Ok effect =>
        <[Orders_OrderFills_SymbolCommodity row :=
            default 0 (historical_positions st
                         !! Orders_OrderFills_SymbolCommodity row) + effect]>
          (historical_positions st)
    | Raise _ => historical_positions st
    end.
Proof.
  unfold row_effect, from_original_data.
  destruct (calculate_position_effect _ _) as [pe|]; simpl; [|reflexivity].
  destruct (numtext_to_int pe) as [effect|]; simpl; [|reflexivity].
  destruct (Dec.add _ _); reflexivity.
Qed.

Lemma status_text_rule first current new ticker :
  status_text first current new ticker
  = lifecycle_text (lifecycle_rule (negb first) current new) ticker.
Proof.
  unfold status_text, lifecycle_rule, lifecycle_text.
  destruct first; simpl; [reflexivity|].
  destruct (new =? 0); [reflexivity|]. destruct (current =? 0); reflexivity.
Qed.

Lemma lifecycle_text_open_not_close ticker :
  lifecycle_text Open ticker <> lifecycle_text Close ticker.
Proof. simpl. unfold String.app. simpl. congruence. Qed.

(** C2. The status of an execution follows the rules in their order: not
    seen before gives Open; otherwise a new quantity of 0 gives Close;
    otherwise a quantity of 0 before the fill gives Open; otherwise
    Continue (the empty status). [calculate_status_for_trade] applies the
    same rules. A symbol's first execution is Open and never Close,
    whatever its new quantity. *)
Theorem lifecycle_status_rule_order row conv ticks st st' e :
  from_original_data row conv ticks st = (st', Ok e) ->
  let symbol := Orders_OrderFills_SymbolCommodity row in
  let seen_before :=
    bool_decide (is_Some (symbol_occurrence_tracker st !! symbol)) in
  let position_qty := default 0 (historical_positions st !! symbol) in
  Status e
  = lifecycle_text (lifecycle_rule seen_before position_qty (PositionQty e))
      (TickerConversion e)
  /\ Status e
     = calculate_status_for_trade symbol (TickerConversion e) (PositionQty e)
         (historical_positions st) (negb seen_before)
  /\ (seen_before = false ->
      Status e = lifecycle_text Open (TickerConversion e)
      /\ Status e <> lifecycle_text Close (TickerConversion e)).
Proof.
  intros H symbol seen_before position_qty.
  destruct (from_original_data_ok _ _ _ _ _ _ H)
    as (effect & acc & _ & _ & _ & Ht & Hq & Hs & _).
  rewrite <- Hq, <- Ht in Hs. clear Hq Ht.
  fold symbol in Hs. fold position_qty in Hs.
  assert (Hfirst : bool_decide (symbol_occurrence_tracker st !! symbol = None)
                   = negb seen_before).
  { unfold seen_before. destruct (symbol_occurrence_tracker st !! symbol) eqn:E.
    - rewrite bool_decide_eq_false_2 by congruence.
      rewrite bool_decide_eq_true_2 by eauto. reflexivity.
    - rewrite bool_decide_eq_true_2 by reflexivity.
      rewrite bool_decide_eq_false_2; [reflexivity|].
      intros [? ?]; congruence. }
  rewrite Hfirst in Hs.
  split; [|split].
  - rewrite Hs, status_text_rule, Bool.negb_involutive. reflexivity.
  - rewrite Hs. unfold status_text, calculate_status_for_trade.
    fold position_qty. reflexivity.
  - intros Hseen. rewrite Hseen in Hs. simpl in Hs.
    split; [exact Hs|]. rewrite Hs. apply lifecycle_text_open_not_close.
Qed.

Lemma lifecycle_status_rule_order_witness :
  exists st' e,
    from_original_data (Examples.fill 1 "Buy" (PyInt 0) (PyInt 100)) ∅
      Examples.mes_ticks fresh_tracker = (st', Ok e)
    /\ PositionQty e = 0
    /\ Status e = "To Open MES".
Proof.
  eexists _, _. split; [vm_compute; reflexivity|].
  split; [reflexivity|].
  edestruct (lifecycle_status_rule_order
               (Examples.fill 1 "Buy" (PyInt 0) (PyInt 100)) ∅
               Examples.mes_ticks fresh_tracker) as (_ & _ & Hfirst);
    [vm_compute; reflexivity|].
  destruct Hfirst as [Hopen _]; [reflexivity|].
  exact Hopen.
Defined.

(** ** The loop over the rows *)

Lemma process_rows_spec conv ticks rows : forall st items,
  process_rows conv ticks st items rows
  = (state_after conv ticks st rows,
     (items ++ omap emitted (row_results conv ticks st rows))%list).
Proof.
  induction rows as [|row rest IH]; intros st items; simpl.
  - rewrite app_nil_r. reflexivity.
  - destruct (from_original_data row conv ticks st) as [st1 r] eqn:E. simpl.
    destruct r as [e|]; simpl.
    + destruct (is_valid e); rewrite IH; [|reflexivity].
      rewrite <- app_assoc. reflexivity.
    + apply IH.
Qed.

Lemma row_results_length conv ticks rows : forall st,
  length (row_results conv ticks st rows) = length rows.
Proof.
  induction rows as [|row rest IH]; intros st; simpl; [reflexivity|].
  destruct (from_original_data row conv ticks st). simpl. f_equal. apply IH.
Qed.

(** C9. An instance whose transaction id, date, time, symbol or side is
    missing is not valid and adds nothing to the output; every row of the
    batch is processed whatever happened to the rows before it, and the
    output is made of the valid instances, in order. *)
Theorem invalid_rows_are_dropped conv ticks :
  (forall e,
      numtext_falsy (DBKey e) = true \/ Date e = "" \/ Time e = ""
      \/ CQGSymbol e = "" \/ Side e = "" ->
      is_valid e = false /\ emitted (Ok e) = None)
  /\ (forall st rows,
         length (row_results conv ticks st rows) = length rows
         /\ snd (process_rows conv ticks st [] rows)
            = omap emitted (row_results conv ticks st rows))
  /\ (forall table user_id df,
         user_id <> "" -> df_rows df <> [] ->
         convert_to_json table user_id df conv ticks
         = Some (omap emitted
                   (row_results conv ticks
                      (initial_tracker
                         (build_historical_context table user_id
                            (unique_symbols df) (current_batch_dbkeys df)
                            (min_batch_dbkey df)))
                      (df_rows df)))).
Proof.
  split; [|split].
  - intros e H.
    assert (Hv : is_valid e = false).
    { unfold is_valid.
      destruct (numtext_falsy (DBKey e)) eqn:E1; [reflexivity|].
      destruct (String.eqb (Date e) "") eqn:E2; [reflexivity|].
      destruct (String.eqb (Time e) "") eqn:E3; [reflexivity|].
      destruct (String.eqb (TradingDay e) "") eqn:E4; [reflexivity|].
      destruct (String.eqb (CQGSymbol e) "") eqn:E5; [reflexivity|].
      destruct (String.eqb (Side e) "") eqn:E6; [reflexivity|].
      exfalso.
      destruct H as [H | [H | [H | [H | H]]]];
        [congruence | rewrite H in *; discriminate ..]. }
    split; [exact Hv|]. simpl. rewrite Hv. reflexivity.
  - intros st rows. split; [apply row_results_length|].
    rewrite process_rows_spec. reflexivity.
  - intros table user_id df Hu Hrows. unfold convert_to_json.
    destruct (String.eqb_spec user_id ""); [contradiction|].
    destruct (df_rows df) eqn:E; [contradiction|].
    rewrite process_rows_spec. reflexivity.
Qed.

Lemma invalid_rows_are_dropped_witness :
  let undated :=
    {| DBKey := NDec (DFinite 7 0); Date := ""; Time := ""; TradingDay := "";
       TickerConversion := "MES"; CQGSymbol := "MES"; Side := "Buy";
       Quantity := NDec (DFinite 1 0); PositionEffect := NDec (DFinite 1 0);
       ExecutionPrice := NDec (DFinite 100 0); NotionalValue := DFinite (-500) 0;
       PositionQty := 1; Status := "To Open MES"; PnLPerPosition := None |} in
  is_valid undated = false /\ emitted (Ok undated) = None.
Proof.
  intros undated.
  apply (proj1 (invalid_rows_are_dropped ∅ ∅) undated).
  right. left. reflexivity.
Defined.

(** ** Running positions *)

Lemma state_after_cons conv ticks st row rest :
  state_after conv ticks st (row :: rest)
  = state_after conv ticks (fst (from_original_data row conv ticks st)) rest.
Proof. reflexivity. Qed.








(** ** When a symbol counts as seen *)

Lemma from_original_data_occurrences row conv ticks st :
  symbol_occurrence_tracker (fst (from_original_data row conv ticks st))
  = match row_effect row with
    | Ok _ =>
        if bool_decide (symbol_occurrence_tracker st
                          !! Orders_OrderFills_SymbolCommodity row = None)
        then <[Orders_OrderFills_SymbolCommodity row := 1]>
               (symbol_occurrence_tracker st)
        else symbol_occurrence_tracker st
    | Raise _ => symbol_occurrence_tracker st
    end.
Proof.
  unfold row_effect, from_original_data.
  destruct (calculate_position_effect _ _) as [pe|]; simpl; [|reflexivity].
  destruct (numtext_to_int pe) as [effect|]; simpl; [|reflexivity].
  destruct (Dec.add _ _); reflexivity.
Qed.

Lemma seen_after_row row conv ticks st symbol :
  is_Some (symbol_occurrence_tracker (fst (from_original_data row conv ticks st))
             !! symbol)
  <-> is_Some (symbol_occurrence_tracker st !! symbol)
      \/ (Orders_OrderFills_SymbolCommodity row = symbol
          /\ is_ok (row_effect row) = true).
Proof.
  rewrite from_original_data_occurrences.
  destruct (row_effect row) as [effect|]; simpl.
  - case_bool_decide as Hfirst.
    + destruct (decide (Orders_OrderFills_SymbolCommodity row = symbol))
        as [<- | Hne].
      * rewrite lookup_insert_eq. split; eauto.
      * rewrite lookup_insert_ne by exact Hne. split; [auto|].
        intros [H | [H _]]; [exact H | contradiction].
    + split; [auto|]. intros [H | [<- _]]; [exact H|].
      destruct (symbol_occurrence_tracker st
                  !! Orders_OrderFills_SymbolCommodity row);
        [eauto | contradiction].
  - split; [auto|]. intros [H | [_ H]]; [exact H | discriminate].
Qed.

Lemma seen_after_rows conv ticks rows : forall st symbol,
  is_Some (symbol_occurrence_tracker (state_after conv ticks st rows) !! symbol)
  <-> is_Some (symbol_occurrence_tracker st !! symbol)
      \/ exists row,
           row ∈ rows
           /\ Orders_OrderFills_SymbolCommodity row = symbol
           /\ is_ok (row_effect row) = true.
Proof.
  induction rows as [|row rest IH]; intros st symbol.
  - simpl. split; [auto|]. intros [H | (row & Hin & _)]; [exact H|].
    inversion Hin.
  - rewrite state_after_cons, IH, seen_after_row. split.
    + intros [[H | [Hs He]] | (r & Hin & Hs & He)].
      * left. exact H.
      * right. exists row. split; [left | auto].
      * right. exists r. split; [right; exact Hin | auto].
    + intros [H | (r & Hin & Hs & He)].
      * left. left. exact H.
      * apply elem_of_cons in Hin as [-> | Hin].
        -- left. right. auto.
        -- right. exists r. auto.
Qed.

(** In a batch a symbol has been seen before a row exactly when the
    replayed history gave it a position or an earlier row of the batch
    with that symbol got through its conversions. *)
Lemma seen_before_iff conv ticks historical_context rows symbol :
  is_Some (symbol_occurrence_tracker
             (state_after conv ticks (initial_tracker historical_context) rows)
             !! symbol)
  <-> is_Some (positions historical_context !! symbol)
      \/ exists row,
           row ∈ rows
           /\ Orders_OrderFills_SymbolCommodity row = symbol
           /\ is_ok (row_effect row) = true.
Proof.
  rewrite seen_after_rows. simpl. rewrite lookup_fmap, fmap_is_Some.
  reflexivity.
Qed.

(** ** Sorting *)

Section SortedFacts.
Context {A : Type} (le : A -> A -> bool).

Lemma insert_Permutation x l : insort le x l ≡ₚ x :: l.
Proof.
  induction l as [|y l IH]; simpl; [reflexivity|].
  destruct (le x y); [reflexivity|].
  rewrite IH. apply Permutation_swap.
Qed.

Lemma sorted_Permutation l : sorted le l ≡ₚ l.
Proof.
  induction l as [|x l IH]; simpl; [reflexivity|].
  rewrite insert_Permutation, IH. reflexivity.
Qed.

Hypothesis le_total : forall a b, le a b = false -> le b a = true.
Hypothesis le_trans : forall a b c, le a b = true -> le b c = true -> le a c = true.

Lemma insert_StronglySorted x l :
  StronglySorted (fun a b => le a b = true) l ->
  StronglySorted (fun a b => le a b = true) (insort le x l).
Proof.
  induction 1 as [|y l Hs IH Hy]; simpl.
  - repeat constructor.
  - destruct (le x y) eqn:Hxy.
    + constructor; [constructor; assumption|].
      constructor; [exact Hxy|].
      eapply Forall_impl; [exact Hy|]. intros z Hz. eauto.
    + constructor; [exact IH|].
      rewrite insert_Permutation. constructor; [auto | exact Hy].
Qed.

Lemma sorted_StronglySorted l :
  StronglySorted (fun a b => le a b = true) (sorted le l).
Proof.
  induction l as [|x l IH]; simpl; [constructor|].
  apply insert_StronglySorted, IH.
Qed.
End SortedFacts.

Lemma StronglySorted_lookup_lt {A} (R : A -> A -> Prop) l :
  StronglySorted R l ->
  forall i j a b, (i < j)%nat -> l !! i = Some a -> l !! j = Some b -> R a b.
Proof.
  induction 1 as [|x l Hs IH Hx]; intros i j a b Hij Hi Hj.
  - rewrite lookup_nil in Hi. discriminate.
  - destruct j as [|j]; [lia|]. simpl in Hj.
    destruct i as [|i]; simpl in Hi.
    + injection Hi as <-. rewrite Forall_forall in Hx. apply Hx.
      eapply list_elem_of_lookup_2. exact Hj.
    + eapply IH; [|exact Hi|exact Hj]. lia.
Qed.

Lemma StronglySorted_weaken {A} (R R' : A -> A -> Prop) l :
  (forall a b, R a b -> R' a b) -> StronglySorted R l -> StronglySorted R' l.
Proof.
  intros HR. induction 1 as [|x l Hs IH Hx]; constructor; [exact IH|].
  eapply Forall_impl; [exact Hx|]. intros; auto.
Qed.

Lemma sorted_by_dbkey trades :
  StronglySorted (fun a b => dbkey_sort_key a <= dbkey_sort_key b)
    (sorted dbkey_le trades).
Proof.
  eapply StronglySorted_weaken;
    [|apply (sorted_StronglySorted dbkey_le)].
  - intros a b H. unfold dbkey_le in H. lia.
  - intros a b H. unfold dbkey_le in *. lia.
  - intros a b c H1 H2. unfold dbkey_le in *. lia.
Qed.

(** C10. When some trade of the list carries a [DBKey], the list is
    sorted by the integer [_parse_dbkey_for_sort] makes of each trade's
    [DBKey]; a trade whose [DBKey] is missing or cannot be parsed has key 0
    and so comes before every trade with a positive key. Only when no
    trade carries a [DBKey] is the list sorted by the (date, time) texts. *)
Theorem sort_trades_by_dbkey (trades : list trade) :
  (has_dbkey trades = true ->
   let r := sort_trades_chronologically trades in
   r = sorted dbkey_le trades
   /\ r ≡ₚ trades
   /\ StronglySorted (fun a b => dbkey_sort_key a <= dbkey_sort_key b) r
   /\ (forall i j a b,
          r !! i = Some a -> r !! j = Some b ->
          dbkey_sort_key a = 0 -> 0 < dbkey_sort_key b -> (i < j)%nat))
  /\ (forall t,
         t_DBKey t = None
         \/ (exists v e, t_DBKey t = Some v /\ parse_dbkey v = Raise e) ->
         dbkey_sort_key t = 0)
  /\ (has_dbkey trades = false ->
      sort_trades_chronologically trades = sorted date_time_le trades).
Proof.
  unfold sort_trades_chronologically.
  split; [|split].
  - intros ->. cbv zeta. split; [reflexivity|].
    split; [apply sorted_Permutation|].
    split; [apply sorted_by_dbkey|].
    intros i j a b Hi Hj Ha Hb.
    destruct (decide (i < j)%nat) as [|Hge]; [assumption|exfalso].
    destruct (decide (i = j)) as [->|Hne].
    + rewrite Hi in Hj. injection Hj as ->. lia.
    + assert (Hlt : (j < i)%nat) by lia.
      pose proof (StronglySorted_lookup_lt _ _ (sorted_by_dbkey trades)
                    j i b a Hlt Hj Hi) as Hle.
      simpl in Hle. lia.
  - intros t [Hnone | (v & e & Hv & He)]; unfold dbkey_sort_key.
    + rewrite Hnone. reflexivity.
    + rewrite Hv. simpl. unfold _parse_dbkey_for_sort. rewrite He. reflexivity.
  - intros ->. reflexivity.
Qed.

Lemma sort_trades_by_dbkey_witness :
  let t5 := Examples.persisted 5 1 Dec.zero 1 "" in
  sort_trades_chronologically [t5; Examples.bare_fill; Examples.opening_fill]
  = [Examples.opening_fill; Examples.bare_fill; t5]
  /\ dbkey_sort_key
       {| t_userId := "u"; t_DBKey := Some (PyStr "n/a");
          t_CQGSymbol := None; t_PositionEffect := None;
          t_NotionalValue := None; t_PositionQty := None;
          t_Status := None; t_Date := None; t_Time := None |} = 0.
Proof.
  intros t5. split.
  - destruct (proj1 (sort_trades_by_dbkey
                       [t5; Examples.bare_fill; Examples.opening_fill]))
      as (Hr & _); [vm_compute; reflexivity|].
    rewrite Hr. vm_compute. reflexivity.
  - apply (proj1 (proj2 (sort_trades_by_dbkey []))).
    right. exists (PyStr "n/a"), ValueError. split; vm_compute; reflexivity.
Defined.

(** ** The filter of the reconciler *)

Lemma keep_trade_true exclude max t :
  keep_trade exclude max t = Ok true ->
  (py_str (default PyNone (t_DBKey t)) ∉ exclude)
  /\ (forall m n,
         max = Some m ->
         dbkey_to_int (default PyNone (t_DBKey t)) = Ok n -> n < m).
Proof.
  unfold keep_trade. intros H.
  destruct (bool_decide (exclude <> ∅)) eqn:Hne;
    destruct (bool_decide (py_str (default PyNone (t_DBKey t)) ∈ exclude)) eqn:Hin;
    simpl in H; try discriminate.
  - apply bool_decide_eq_false in Hin. split; [exact Hin|].
    intros m n -> Hn. rewrite Hn in H.
    destruct (default PyNone (t_DBKey t)); simpl in Hn; try discriminate;
      injection H as H; apply Bool.negb_true_iff in H; lia.
  - apply bool_decide_eq_false in Hne.
    assert (exclude = ∅) as -> by (destruct (decide (exclude = ∅)); tauto).
    split; [set_solver|].
    intros m n -> Hn. rewrite Hn in H.
    destruct (default PyNone (t_DBKey t)); simpl in Hn; try discriminate;
      injection H as H; apply Bool.negb_true_iff in H; lia.
  - apply bool_decide_eq_false in Hin. split; [exact Hin|].
    intros m n -> Hn. rewrite Hn in H.
    destruct (default PyNone (t_DBKey t)); simpl in Hn; try discriminate;
      injection H as H; apply Bool.negb_true_iff in H; lia.
Qed.

Lemma filter_trades_kept exclude max l : forall r t,
  filter_trades exclude max l = Ok r ->
  t ∈ r -> t ∈ l /\ keep_trade exclude max t = Ok true.
Proof.
  induction l as [|x l IH]; intros r t H Ht; simpl in H.
  - injection H as <-. set_solver.
  - destruct (keep_trade exclude max x) as [keep|] eqn:Hk; simpl in H;
      [|discriminate].
    destruct (filter_trades exclude max l) as [r'|] eqn:Hr; simpl in H;
      [|discriminate].
    injection H as <-.
    destruct keep.
    + apply elem_of_cons in Ht as [-> | Ht].
      * split; [left | exact Hk].
      * pose proof (IH _ _ eq_refl Ht) as [Hin Hkeep].
        split; [right; exact Hin | exact Hkeep].
    + pose proof (IH _ _ eq_refl Ht) as [Hin Hkeep].
      split; [right; exact Hin | exact Hkeep].
Qed.

Lemma sort_trades_Permutation l : sort_trades_chronologically l ≡ₚ l.
Proof.
  unfold sort_trades_chronologically.
  destruct (has_dbkey l); apply sorted_Permutation.
Qed.

(** The two shapes of a context: the empty one, or the sorted filtered
    trades with the positions their replay gives. *)
Lemma build_historical_context_cases table user_id symbols exclude max :
  let ctx := build_historical_context table user_id symbols exclude max in
  ctx = empty_context
  \/ exists all_trades filtered,
       filter_trades exclude max all_trades = Ok filtered
       /\ trades ctx = sort_trades_chronologically filtered
       /\ calculate_running_positions (trades ctx) = Ok (positions ctx).
Proof.
  unfold build_historical_context.
  destruct (String.eqb user_id ""); [left; reflexivity|].
  match goal with
  | |- context [filter_trades exclude max ?a] => set (all_trades := a)
  end.
  destruct (filter_trades exclude max all_trades) as [filtered|] eqn:Hf;
    simpl; [|left; reflexivity].
  destruct filtered as [|x filtered]; simpl; [left; reflexivity|].
  destruct (calculate_running_positions _) as [p|] eqn:Hp; simpl;
    [|left; reflexivity].
  right. exists all_trades, (x :: filtered). auto.
Qed.

(** C5. No execution of the returned history has its id (as text) in
    [exclude_dbkeys], and none has an id that is, as a number, at or above
    [max_dbkey]: every persisted execution of either kind has been
    removed. The comparison is between integers. *)
Theorem history_excludes_batch_and_later
    table user_id symbols (exclude_dbkeys : gset string) (max_dbkey : option Z)
    (t : trade) :
  t ∈ trades (build_historical_context table user_id symbols exclude_dbkeys
                max_dbkey) ->
  (py_str (default PyNone (t_DBKey t)) ∉ exclude_dbkeys)
  /\ (forall m n,
         max_dbkey = Some m ->
         dbkey_to_int (default PyNone (t_DBKey t)) = Ok n -> n < m).
Proof.
  intros Ht.
  destruct (build_historical_context_cases table user_id symbols
              exclude_dbkeys max_dbkey) as [Hempty | (all & r & Hf & Hs & _)].
  - rewrite Hempty in Ht. simpl in Ht. set_solver.
  - rewrite Hs, sort_trades_Permutation in Ht.
    destruct (filter_trades_kept _ _ _ _ _ Hf Ht) as [_ Hk].
    apply keep_trade_true. exact Hk.
Qed.

Lemma history_excludes_batch_and_later_witness :
  (py_str (default PyNone (t_DBKey Examples.opening_fill))
     ∉ ({["2"]} : gset string))
  /\ (forall m n,
         Some 2 = Some m ->
         dbkey_to_int (default PyNone (t_DBKey Examples.opening_fill)) = Ok n ->
         n < m).
Proof.
  apply (history_excludes_batch_and_later
           [Examples.opening_fill; Examples.adding_fill] "u" ["MES"]
           {["2"]} (Some 2) Examples.opening_fill).
  vm_compute. left.
Defined.

(** Ids compare as numbers: 10 is at or above the cutoff 9 and is removed,
    although the text "10" sorts before the text "9". *)
Lemma cutoff_compares_numbers :
  let t := {| t_userId := "u"; t_DBKey := Some (PyStr "10");
              t_CQGSymbol := Some "MES"; t_PositionEffect := Some (DFinite 1 0);
              t_NotionalValue := None; t_PositionQty := None;
              t_Status := None; t_Date := None; t_Time := None |} in
  keep_trade ∅ (Some 9) t = Ok false
  /\ trades (build_historical_context [t] "u" [] ∅ (Some 9)) = []
  /\ String.ltb "10" "9" = true.
Proof. repeat split; vm_compute; reflexivity. Qed.

(** ** Truncation to the last closed position *)


Lemma scan_last_close_step l i t :
  l !! i = Some t -> finite_qty t ->
  scan_last_close l (S i)
  = if is_close t then Ok (Some i) else scan_last_close l i.
Proof.
  intros Hl Hfin. simpl. rewrite Hl. unfold is_close.
  destruct (t_PositionQty t) as [q|] eqn:Hq; [|reflexivity].
  specialize (Hfin q Hq). destruct q; try discriminate. reflexivity.
Qed.

Lemma scan_last_close_none l : forall n,
  (n <= length l)%nat ->
  Forall finite_qty l ->
  (forall j t, (j < n)%nat -> l !! j = Some t -> is_close t = false) ->
  scan_last_close l n = Ok None.
Proof.
  induction n as [|n IH]; intros Hn Hfin Hno; [reflexivity|].
  destruct (lookup_lt_is_Some_2 l n) as [t Ht]; [lia|].
  rewrite (scan_last_close_step l n t Ht).
  - rewrite (Hno n t) by (lia || assumption).
    apply IH; [lia | assumption |]. intros j u Hj. apply Hno. lia.
  - rewrite Forall_forall in Hfin. apply Hfin.
    eapply list_elem_of_lookup_2. exact Ht.
Qed.

Lemma scan_last_close_some l i c : forall n,
  (i < n)%nat -> (n <= length l)%nat ->
  Forall finite_qty l ->
  l !! i = Some c -> is_close c = true ->
  (forall j t, (i < j)%nat -> (j < n)%nat -> l !! j = Some t -> is_close t = false) ->
  scan_last_close l n = Ok (Some i).
Proof.
  induction n as [|n IH]; intros Hi Hn Hfin Hc Hclose Hno; [lia|].
  destruct (lookup_lt_is_Some_2 l n) as [t Ht]; [lia|].
  assert (Hft : finite_qty t).
  { rewrite Forall_forall in Hfin. apply Hfin.
    eapply list_elem_of_lookup_2. exact Ht. }
  rewrite (scan_last_close_step l n t Ht Hft).
  destruct (decide (n = i)) as [-> | Hne].
  - rewrite Hc in Ht. injection Ht as <-. rewrite Hclose. reflexivity.
  - rewrite (Hno n t) by (lia || assumption).
    apply IH; try assumption; try lia.
    intros j u Hj1 Hj2. apply Hno; lia.
Qed.

Lemma get_trades_since_last_close_unfold l :
  _get_trades_since_last_close l
  = if negb (existsb (fun t => bool_decide (is_Some (t_PositionQty t))) l)
    then Ok l
    else
      last_close_index ← scan_last_close l (length l);
      match last_close_index with
      | None => Ok l
      | Some i => Ok (drop (S i) l)
      end.
Proof. destruct l; reflexivity. Qed.

(** C4, as the code has it. On a sorted per-symbol history whose position
    quantities are finite, the truncation returns exactly the executions
    after the last one that closed a position (quantity 0 and a closing
    status), and the full history when there is none; in particular the
    full history is kept when no record has a position quantity. *)
Theorem truncation_after_last_close (sorted_trades : list trade) :
  Forall finite_qty sorted_trades ->
  (forall before c after,
      sorted_trades = (before ++ c :: after)%list ->
      is_close c = true ->
      Forall (fun t => is_close t = false) after ->
      _get_trades_since_last_close sorted_trades = Ok after)
  /\ (Forall (fun t => is_close t = false) sorted_trades ->
      _get_trades_since_last_close sorted_trades = Ok sorted_trades)
  /\ (Forall (fun t => t_PositionQty t = None) sorted_trades ->
      _get_trades_since_last_close sorted_trades = Ok sorted_trades).
Proof.
  intros Hfin.
  assert (Hnone : Forall (fun t => is_close t = false) sorted_trades ->
                  _get_trades_since_last_close sorted_trades = Ok sorted_trades).
  { intros Hno. rewrite get_trades_since_last_close_unfold.
    destruct (negb _); [reflexivity|].
    rewrite scan_last_close_none; [reflexivity | lia | assumption |].
    intros j t _ Hj. rewrite Forall_forall in Hno. apply Hno.
    eapply list_elem_of_lookup_2. exact Hj. }
  split; [|split; [exact Hnone|]].
  - intros before c after -> Hc Hafter.
    rewrite get_trades_since_last_close_unfold.
    assert (Hhas : existsb (fun t => bool_decide (is_Some (t_PositionQty t)))
                     (before ++ c :: after) = true).
    { apply existsb_exists. exists c. split; [apply in_elt|].
      unfold is_close in Hc. destruct (t_PositionQty c); [|discriminate].
      apply bool_decide_eq_true. eauto. }
    rewrite Hhas. simpl negb. cbv iota.
    rewrite (scan_last_close_some _ (length before) c).
    + simpl. rewrite (cons_middle c before after), app_assoc.
      rewrite drop_app_length'; [reflexivity|].
      rewrite length_app. simpl. lia.
    + rewrite length_app. simpl. lia.
    + lia.
    + assumption.
    + rewrite lookup_app_r by lia. rewrite Nat.sub_diag. reflexivity.
    + exact Hc.
    + intros j t Hj1 Hj2 Hj. rewrite Forall_forall in Hafter. apply Hafter.
      rewrite lookup_app_r in Hj by lia.
      destruct (j - length before)%nat as [|k] eqn:Ek; [lia|].
      simpl in Hj. eapply list_elem_of_lookup_2. exact Hj.
  - intros Hall. apply Hnone.
    eapply Forall_impl; [exact Hall|]. intros t Ht. unfold is_close.
    rewrite Ht. reflexivity.
Qed.

Lemma truncation_after_last_close_witness :
  _get_trades_since_last_close
    [Examples.opening_fill; Examples.closing_fill; Examples.bare_fill]
  = Ok [Examples.bare_fill].
Proof.
  apply (proj1 (truncation_after_last_close
                  [Examples.opening_fill; Examples.closing_fill;
                   Examples.bare_fill]
                  ltac:(repeat constructor; intros q [= <-]; reflexivity))
           [Examples.opening_fill] Examples.closing_fill [Examples.bare_fill]).
  - reflexivity.
  - vm_compute. reflexivity.
  - repeat constructor.
Defined.

(** A history whose last record lacks the position quantity is truncated
    all the same when an earlier record closed the position. *)
Lemma truncation_despite_missing_field :
  let history := [Examples.closing_fill; Examples.bare_fill] in
  Exists (fun t => t_PositionQty t = None) history
  /\ _get_trades_since_last_close history = Ok [Examples.bare_fill]
  /\ [Examples.bare_fill] <> history.
Proof.
  split; [right; left; reflexivity|].
  split; [vm_compute; reflexivity | discriminate].
Qed.

(** ** Determinism of a batch *)




(** The premise of the previous theorem can fail: once a batch that closed
    a position is persisted, the truncation to the last close (done before
    the batch's ids are excluded) drops the fills that opened the position,
    and a second run of the same batch gives another result. *)
Lemma rerun_after_persisted_close_differs :
  let lifecycle_fields e := (PositionQty e, Status e, PnLPerPosition e) in
  (map lifecycle_fields
     <$> convert_to_json [Examples.opening_fill] "u" Examples.closing_batch ∅
           Examples.mes_ticks)
  = Some [(0, "To Close MES", Some (DFinite 1100 0))]
  /\ (map lifecycle_fields
        <$> convert_to_json [Examples.opening_fill; Examples.closing_fill] "u"
              Examples.closing_batch ∅ Examples.mes_ticks)
     = Some [(-2, "To Open MES", None)].
Proof. split; vm_compute; reflexivity. Qed.

(** ** Numeric parsing *)

(** C8, as the code has it. [parse_decimal] returns for every value either
    a decimal or, for text it cannot convert, that same text: it never
    raises. Text without the letter E that [Decimal] accepts is converted
    exactly. Text with an E is read as a binary float first and converted
    from the float's shortest text, [Decimal(str(float(text)))], so digits
    beyond binary64 precision or range are lost. *)
Theorem parse_decimal_text_or_decimal :
  (forall value,
      match parse_decimal value with
      | NDec _ => True
      | NStr s => value = PyStr s
      end)
  /\ (forall s,
         Text.contains "E" (Text.upper s) = false ->
         parse_decimal (PyStr s)
         = match Dec.of_str s with
           | Ok d => NDec d
           | Raise _ => NStr s
           end)
  /\ (forall s,
         Text.contains "E" (Text.upper s) = true ->
         parse_decimal (PyStr s)
         = match Float.of_str s with
           | Ok f =>
               match Dec.of_str (Float.repr f) with
               | Ok d => NDec d
               | Raise _ => NStr s
               end
           | Raise _ => NStr s
           end).
Proof.
  split; [|split].
  - intros value. unfold parse_decimal.
    destruct (isna value) eqn:Hna; [exact I|].
    destruct value as [|n|f|s|d]; simpl.
    + exact I.
    + destruct (Dec.of_str _); exact I.
    + destruct (Dec.of_str _); exact I.
    + destruct (Text.contains "E" (Text.upper s)).
      * destruct (Float.of_str s) as [f|]; simpl; [|reflexivity].
        destruct (Dec.of_str _); simpl; reflexivity || exact I.
      * simpl. destruct (Dec.of_str s); simpl; reflexivity || exact I.
    + exact I.
  - intros s Hs. unfold parse_decimal. simpl. rewrite Hs. simpl.
    destruct (Dec.of_str s); reflexivity.
  - intros s Hs. unfold parse_decimal. simpl. rewrite Hs.
    destruct (Float.of_str s) as [f|]; simpl; [|reflexivity].
    destruct (Dec.of_str _); reflexivity.
Qed.

Lemma parse_decimal_text_or_decimal_witness :
  parse_decimal (PyStr "4500.25") = NDec (DFinite 450025 (-2))
  /\ parse_decimal (PyStr "n/a") = NStr "n/a"
  /\ parse_decimal (PyStr "4.5E3") = NDec (DFinite 45000 (-1)).
Proof.
  destruct parse_decimal_text_or_decimal as (_ & Hplain & Hexp).
  split; [|split].
  - rewrite (Hplain "4500.25"); vm_compute; reflexivity.
  - rewrite (Hplain "n/a"); vm_compute; reflexivity.
  - rewrite (Hexp "4.5E3"); vm_compute; reflexivity.
Defined.

(** Text in scientific notation is not converted exactly: [1E-400] is
    decimal text for 10^-400 and comes out as [Decimal('0.0')], and 20
    significant digits come out as 17. *)
Lemma scientific_text_not_exact :
  Dec.of_str "1E-400" = Ok (DFinite 1 (-400))
  /\ parse_decimal (PyStr "1E-400") = NDec (DFinite 0 (-1))
  /\ dec_eqb (DFinite 0 (-1)) (DFinite 1 (-400)) = false
  /\ Dec.of_str "1.2345678901234567890E+5"
     = Ok (DFinite 12345678901234567890 (-14))
  /\ parse_decimal (PyStr "1.2345678901234567890E+5")
     = NDec (DFinite 12345678901234567 (-11))
  /\ dec_eqb (DFinite 12345678901234567 (-11))
       (DFinite 12345678901234567890 (-14)) = false.
Proof. repeat split; vm_compute; reflexivity. Qed.

(** ** Realized P&L at a close *)


(** C1. A position opened by a persisted execution (bought 2 at 100,
    notional -1000) and closed by the batch (sold 2 at 110, notional 1100):
    the opening fill is replayed for the position, the closing execution
    has status Close and quantity 0, and its realized P&L is 1100, the
    notional of the batch's own fill, where the sum over the position run
    is 100. The accumulator starts empty at each batch. *)
Theorem close_pnl_omits_replayed_history :
  let history := [Examples.opening_fill] in
  let context :=
    build_historical_context history "u" ["MES"] {["2"]} (Some 2) in
  trades context = history
  /\ positions context !! "MES" = Some 2
  /\ pnl_accumulators (initial_tracker context) = ∅
  /\ exists e,
       convert_to_json history "u" Examples.closing_batch ∅ Examples.mes_ticks
       = Some [e]
       /\ Status e = "To Close MES"
       /\ PositionQty e = 0
       /\ NotionalValue e = DFinite 1100 0
       /\ PnLPerPosition e = Some (DFinite 1100 0)
       /\ dec_sum [DFinite (-1000) 0; NotionalValue e] = Ok (DFinite 100 0).
Proof.
  cbv zeta. split; [vm_compute; reflexivity|].
  split; [vm_compute; reflexivity|].
  split; [reflexivity|].
  eexists. split; [vm_compute; reflexivity|].
  repeat split; vm_compute; reflexivity.
Qed.

(** Within one batch and without history the close carries the sum over
    the run: bought 2 at 100 then sold 2 at 110 realizes 100. *)
Lemma close_pnl_within_batch :
  let batch :=
    {| df_rows := [Examples.fill 10 "Buy" (PyInt 2) (PyInt 100);
                   Examples.fill 11 "Sell" (PyInt 2) (PyInt 110)];
       unique_symbols := ["MES"];
       current_batch_dbkeys := {["10"; "11"]};
       min_batch_dbkey := Some 10 |} in
  map (fun e => (PositionQty e, Status e, PnLPerPosition e))
    <$> convert_to_json [] "u" batch ∅ Examples.mes_ticks
  = Some [(2, "To Open MES", None); (0, "To Close MES", Some (DFinite 100 0))].
Proof. vm_compute. reflexivity. Qed.

(** * Further properties *)

(** ** Where the replayed history comes from *)

Lemma scan_last_close_bound l : forall n i,
  scan_last_close l n = Ok (Some i) -> (i < n)%nat.
Proof.
  induction n as [|n IH]; intros i H; simpl in H; [discriminate|].
  destruct (l !! n) as [t|]; [|discriminate].
  destruct (t_PositionQty t) as [q|].
  - destruct (Dec.to_int q) as [z|]; simpl in H; [|discriminate].
    destruct ((z =? 0) && _).
    + injection H as <-. lia.
    + apply IH in H. lia.
  - apply IH in H. lia.
Qed.

(** Whatever the truncation returns is the end of its input. *)
Lemma get_trades_since_last_close_suffix l r :
  _get_trades_since_last_close l = Ok r -> exists k, r = drop k l.
Proof.
  rewrite get_trades_since_last_close_unfold.
  destruct (negb _).
  - intros [= <-]. exists 0%nat. reflexivity.
  - destruct (scan_last_close l (length l)) as [[i|]|]; simpl;
      intros [= <-]; eauto.
    exists 0%nat. reflexivity.
Qed.

Lemma elem_of_drop {A} (x : A) k l : x ∈ drop k l -> x ∈ l.
Proof.
  revert l. induction k as [|k IH]; intros l H; [exact H|].
  destruct l as [|y l]; [exact H|]. right. apply IH. exact H.
Qed.

Lemma relevant_trades_from_query table user_id symbols : forall acc r t,
  relevant_trades table user_id symbols acc = Ok r ->
  t ∈ r ->
  t ∈ acc
  \/ exists symbol, symbol ∈ symbols /\ t ∈ query_user_symbol table user_id symbol.
Proof.
  induction symbols as [|s rest IH]; intros acc r t H Ht; simpl in H.
  - injection H as <-. left. exact Ht.
  - destruct (_get_trades_since_last_close _) as [rel|] eqn:Hrel; simpl in H;
      [|discriminate].
    destruct (IH _ _ _ H Ht) as [Hacc | (s' & Hs' & Hq)].
    + apply elem_of_app in Hacc as [Hacc | Hin]; [left; exact Hacc|].
      right. exists s. split; [left|].
      destruct (get_trades_since_last_close_suffix _ _ Hrel) as [k ->].
      apply elem_of_drop in Hin.
      rewrite sort_trades_Permutation in Hin. exact Hin.
    + right. exists s'. split; [right; exact Hs' | exact Hq].
Qed.

(** Every trade either query path returns is an item of the table in the
    user's partition. *)
Lemma queried_trades_of_user table user_id symbols t :
  t ∈ get_relevant_trades_for_symbols table user_id symbols
  \/ t ∈ get_all_historical_trades table user_id ->
  t ∈ table /\ t_userId t = user_id.
Proof.
  assert (Hall : t ∈ get_all_historical_trades table user_id ->
                 t ∈ table /\ t_userId t = user_id).
  { unfold get_all_historical_trades, query_user.
    destruct (String.eqb user_id ""); [intros H; inversion H|].
    intros H. apply list_elem_of_filter in H. tauto. }
  intros [H | H]; [|auto].
  unfold get_relevant_trades_for_symbols in H.
  destruct (String.eqb user_id "") eqn:Hu; [inversion H|].
  destruct (relevant_trades table user_id symbols []) as [r|] eqn:Hr;
    simpl in H.
  - destruct (relevant_trades_from_query _ _ _ _ _ _ Hr H)
      as [Hnil | (s & _ & Hq)]; [inversion Hnil|].
    unfold query_user_symbol in Hq. apply list_elem_of_filter in Hq. tauto.
  - apply Hall. exact H.
Qed.

Lemma filter_trades_sublist exclude max l r t :
  filter_trades exclude max l = Ok r -> t ∈ r -> t ∈ l.
Proof. intros H Ht. exact (proj1 (filter_trades_kept _ _ _ _ _ H Ht)). Qed.

(** The history replayed for a user holds only persisted executions of
    that user: no execution is made up and no other user's execution gets
    in, whichever query path and fallback was taken. *)
Theorem history_is_of_the_user table user_id symbols exclude_dbkeys max_dbkey t :
  t ∈ trades (build_historical_context table user_id symbols exclude_dbkeys
                max_dbkey) ->
  t ∈ table /\ t_userId t = user_id.
Proof.
  unfold build_historical_context.
  destruct (String.eqb user_id "") eqn:Hu; [intros H; inversion H|].
  match goal with
  | |- context [filter_trades exclude_dbkeys max_dbkey ?a] => set (all_trades := a)
  end.
  assert (Hall : forall x, x ∈ all_trades -> x ∈ table /\ t_userId x = user_id).
  { intros x Hx. apply (queried_trades_of_user table user_id symbols).
    unfold all_trades in Hx. destruct symbols; [right | left]; exact Hx. }
  destruct (filter_trades exclude_dbkeys max_dbkey all_trades) as [r|] eqn:Hf;
    simpl; [|intros H; inversion H].
  destruct r as [|x r]; simpl; [intros H; inversion H|].
  destruct (calculate_running_positions _) as [p|]; simpl;
    [|intros H; inversion H].
  intros H. rewrite sort_trades_Permutation in H.
  apply Hall. eapply filter_trades_sublist; eassumption.
Qed.

Lemma history_is_of_the_user_witness :
  Examples.opening_fill
    ∈ [Examples.opening_fill;
       {| t_userId := "v"; t_DBKey := Some (PyDec (DFinite 1 0));
          t_CQGSymbol := Some "MES"; t_PositionEffect := Some (DFinite 7 0);
          t_NotionalValue := None; t_PositionQty := None; t_Status := None;
          t_Date := None; t_Time := None |}]
  /\ t_userId Examples.opening_fill = "u".
Proof.
  apply (history_is_of_the_user _ "u" ["MES"] {["2"]} (Some 2)).
  vm_compute. left.
Defined.
(** ** The order of the replayed history *)

Lemma string_compare_refl s : String.compare s s = Eq.
Proof.
  induction s as [|c s IH]; simpl; [reflexivity|].
  unfold Ascii.compare. rewrite N.compare_refl. exact IH.
Qed.

Lemma string_leb_trans a b c :
  String.leb a b = true -> String.leb b c = true -> String.leb a c = true.
Proof.
  intros H1 H2. apply Is_true_true.
  apply (@transitivity _ String.le _ a b c); apply Is_true_true; assumption.
Qed.

Lemma string_ltb_leb a b : String.ltb a b = true -> String.leb a b = true.
Proof.
  unfold String.ltb, String.leb. destruct (String.compare a b); congruence.
Qed.

Lemma string_ltb_irrefl a : String.ltb a a = false.
Proof. unfold String.ltb. rewrite string_compare_refl. reflexivity. Qed.

Lemma string_ltb_leb_trans a b c :
  String.ltb a b = true -> String.leb b c = true -> String.ltb a c = true.
Proof.
  intros H1 H2.
  pose proof (string_leb_trans a b c (string_ltb_leb _ _ H1) H2) as H3.
  unfold String.ltb, String.leb in *.
  destruct (String.compare a c) eqn:Hac; try congruence.
  apply String.compare_eq_iff in Hac. subst c.
  rewrite String.compare_antisym in H2.
  destruct (String.compare a b); simpl in *; congruence.
Qed.

Lemma string_leb_ltb_trans a b c :
  String.leb a b = true -> String.ltb b c = true -> String.ltb a c = true.
Proof.
  intros H1 H2.
  pose proof (string_leb_trans a b c H1 (string_ltb_leb _ _ H2)) as H3.
  unfold String.ltb, String.leb in *.
  destruct (String.compare a c) eqn:Hac; try congruence.
  apply String.compare_eq_iff in Hac. subst c.
  rewrite String.compare_antisym in H1.
  destruct (String.compare b a); simpl in *; congruence.
Qed.

Lemma pair_le_total a b : pair_le a b = false -> pair_le b a = true.
Proof.
  unfold pair_le. intros H.
  apply Bool.orb_false_iff in H as [Hlt Heq].
  destruct (String.compare (fst a) (fst b)) eqn:Hc.
  - apply String.compare_eq_iff in Hc. rewrite Hc in *.
    rewrite String.eqb_refl in *. simpl in Heq.
    rewrite string_ltb_irrefl. simpl.
    destruct (String.leb_total (snd a) (snd b)); congruence.
  - unfold String.ltb in Hlt. rewrite Hc in Hlt. discriminate.
  - unfold String.ltb at 1. rewrite String.compare_antisym, Hc. reflexivity.
Qed.

Lemma pair_le_trans a b c :
  pair_le a b = true -> pair_le b c = true -> pair_le a c = true.
Proof.
  unfold pair_le. intros H1 H2.
  apply Bool.orb_true_iff in H1 as [H1 | H1];
    apply Bool.orb_true_iff in H2 as [H2 | H2].
  - rewrite (string_ltb_leb_trans _ _ _ H1 (string_ltb_leb _ _ H2)).
    reflexivity.
  - apply andb_prop in H2 as [H2 _]. apply String.eqb_eq in H2.
    rewrite <- H2, H1. reflexivity.
  - apply andb_prop in H1 as [H1 _]. apply String.eqb_eq in H1.
    rewrite H1, H2. reflexivity.
  - apply andb_prop in H1 as [E1 L1]. apply andb_prop in H2 as [E2 L2].
    apply String.eqb_eq in E1, E2. rewrite E1, E2, String.eqb_refl.
    rewrite (string_leb_trans _ _ _ L1 L2). apply Bool.orb_true_r.
Qed.

Lemma sorted_by_date_time l :
  StronglySorted (fun a b => date_time_le a b = true) (sorted date_time_le l).
Proof.
  apply sorted_StronglySorted; unfold date_time_le.
  - intros a b. apply pair_le_total.
  - intros a b c. apply pair_le_trans.
Qed.

(** Sorting a sorted list leaves it as it is. *)
Lemma sorted_fixed {A} (le : A -> A -> bool) l :
  StronglySorted (fun a b => le a b = true) l -> sorted le l = l.
Proof.
  induction 1 as [|x l Hs IH Hx]; simpl; [reflexivity|].
  rewrite IH. destruct l as [|y l]; [reflexivity|]. simpl.
  inversion Hx as [|? ? Hxy _]. rewrite Hxy. reflexivity.
Qed.

Lemma has_dbkey_Permutation l l' : l ≡ₚ l' -> has_dbkey l = has_dbkey l'.
Proof.
  intros Hp. unfold has_dbkey.
  apply eq_true_iff_eq. rewrite !existsb_exists.
  split; intros (x & Hx & Hd); exists x; split; try exact Hd;
    apply list_elem_of_In; apply list_elem_of_In in Hx;
    [rewrite <- Hp | rewrite Hp]; exact Hx.
Qed.

Lemma sort_trades_idempotent l :
  sort_trades_chronologically (sort_trades_chronologically l)
  = sort_trades_chronologically l.
Proof.
  unfold sort_trades_chronologically at 1.
  rewrite (has_dbkey_Permutation _ _ (sort_trades_Permutation l)).
  unfold sort_trades_chronologically. destruct (has_dbkey l).
  - apply sorted_fixed. apply (sorted_StronglySorted dbkey_le); unfold dbkey_le.
    + intros a b H. lia.
    + intros a b c H1 H2. lia.
  - apply sorted_fixed. apply sorted_by_date_time.
Qed.

(** Sorting keeps every trade, once each; its result is in the order of
    the key it used (ids when some trade has one, else date and time), and
    sorting again changes nothing. *)
Theorem sort_trades_sorted_and_idempotent (trades : list trade) :
  sort_trades_chronologically trades ≡ₚ trades
  /\ StronglySorted
       (fun a b =>
          if has_dbkey trades then dbkey_sort_key a <= dbkey_sort_key b
          else date_time_le a b = true)
       (sort_trades_chronologically trades)
  /\ sort_trades_chronologically (sort_trades_chronologically trades)
     = sort_trades_chronologically trades.
Proof.
  split; [apply sort_trades_Permutation|].
  split; [|apply sort_trades_idempotent].
  unfold sort_trades_chronologically. destruct (has_dbkey trades).
  - apply sorted_by_dbkey.
  - apply sorted_by_date_time.
Qed.

(** The history handed to the tracker is in sorted order, ascending by
    id as soon as one of its trades has an id. *)
Theorem history_is_sorted table user_id symbols exclude_dbkeys max_dbkey :
  let history :=
    trades (build_historical_context table user_id symbols exclude_dbkeys
              max_dbkey) in
  sort_trades_chronologically history = history
  /\ (has_dbkey history = true ->
      StronglySorted (fun a b => dbkey_sort_key a <= dbkey_sort_key b) history).
Proof.
  intros history.
  destruct (build_historical_context_cases table user_id symbols
              exclude_dbkeys max_dbkey) as [Hempty | (all & r & _ & Hs & _)];
    unfold history.
  - rewrite Hempty. split; [reflexivity|]. discriminate.
  - rewrite Hs. split; [apply sort_trades_idempotent|].
    rewrite (has_dbkey_Permutation _ _ (sort_trades_Permutation r)).
    unfold sort_trades_chronologically. intros ->. apply sorted_by_dbkey.
Qed.

Lemma history_is_sorted_witness :
  StronglySorted (fun a b => dbkey_sort_key a <= dbkey_sort_key b)
    (trades (build_historical_context
               [Examples.adding_fill; Examples.opening_fill] "u" [] ∅ None)).
Proof.
  apply (proj2 (history_is_sorted
                  [Examples.adding_fill; Examples.opening_fill] "u" [] ∅ None)).
  vm_compute. reflexivity.
Defined.

(** A call without user id, or for a user with no persisted execution,
    gives the empty context and no error. *)
Theorem no_history_gives_empty_context
    table user_id symbols exclude_dbkeys max_dbkey :
  user_id = "" \/ (forall t, t ∈ table -> t_userId t <> user_id) ->
  build_historical_context table user_id symbols exclude_dbkeys max_dbkey
  = empty_context.
Proof.
  intros [-> | Hnone]; [reflexivity|].
  unfold build_historical_context.
  destruct (String.eqb user_id ""); [reflexivity|].
  match goal with
  | |- context [filter_trades exclude_dbkeys max_dbkey ?a] => set (all_trades := a)
  end.
  assert (Hnil : all_trades = []).
  { destruct all_trades as [|x l] eqn:E; [reflexivity|exfalso].
    assert (Hx : x ∈ all_trades) by (rewrite E; left).
    destruct (queried_trades_of_user table user_id symbols x) as [Hin Hu].
    - unfold all_trades in Hx. destruct symbols; [right | left]; exact Hx.
    - exact (Hnone x Hin Hu). }
  rewrite Hnil. reflexivity.
Qed.

Lemma no_history_gives_empty_context_witness :
  build_historical_context [Examples.opening_fill] "w" ["MES"] ∅ None
  = empty_context.
Proof.
  apply no_history_gives_empty_context. right.
  intros t Ht. apply list_elem_of_singleton in Ht. subst t. discriminate.
Defined.
(** ** The tracker: what a row touches *)

Lemma from_original_data_accumulators row conv ticks st :
  let ticker :=
    apply_symbol_conversion (Orders_OrderFills_SymbolCommodity row) conv in
  forall other,
    other <> ticker ->
    pnl_accumulators (fst (from_original_data row conv ticks st)) !! other
    = pnl_accumulators st !! other.
Proof.
  intros ticker other Hne. unfold from_original_data.
  destruct (calculate_position_effect _ _) as [pe|]; simpl; [|reflexivity].
  destruct (numtext_to_int pe) as [effect|]; simpl; [|reflexivity].
  destruct (Dec.add _ _) as [acc|]; simpl; [|reflexivity].
  fold ticker.
  destruct (Text.contains "To Close" _ && _);
    rewrite ?lookup_insert_ne by congruence; reflexivity.
Qed.

(** A row, whatever becomes of it, leaves the position and the occurrence
    entry of every other symbol and the accumulator of every other ticker
    as they were. *)
Theorem row_touches_only_its_symbol row conv ticks st :
  let st' := fst (from_original_data row conv ticks st) in
  (forall symbol,
      symbol <> Orders_OrderFills_SymbolCommodity row ->
      historical_positions st' !! symbol = historical_positions st !! symbol
      /\ symbol_occurrence_tracker st' !! symbol
         = symbol_occurrence_tracker st !! symbol)
  /\ (forall ticker,
         ticker
         <> apply_symbol_conversion (Orders_OrderFills_SymbolCommodity row) conv ->
         pnl_accumulators st' !! ticker = pnl_accumulators st !! ticker).
Proof.
  intros st'. split.
  - intros symbol Hne. unfold st'.
    rewrite from_original_data_positions, from_original_data_occurrences.
    destruct (row_effect row); [|auto].
    split; [rewrite lookup_insert_ne by congruence; reflexivity|].
    case_bool_decide; [|reflexivity].
    rewrite lookup_insert_ne by congruence. reflexivity.
  - intros ticker Hne. apply from_original_data_accumulators. exact Hne.
Qed.

Lemma row_touches_only_its_symbol_witness :
  historical_positions
    (fst (from_original_data
            (Examples.fill 1 "Buy" (PyInt 2) (PyInt 100)) ∅ Examples.mes_ticks
            {| historical_positions := {["NQ" := 4]};
               symbol_occurrence_tracker := {["NQ" := 1]};
               pnl_accumulators := ∅ |})) !! "NQ"
  = Some 4.
Proof.
  pose proof (proj1 (row_touches_only_its_symbol
                       (Examples.fill 1 "Buy" (PyInt 2) (PyInt 100)) ∅
                       Examples.mes_ticks
                       {| historical_positions := {["NQ" := 4]};
                          symbol_occurrence_tracker := {["NQ" := 1]};
                          pnl_accumulators := ∅ |}) "NQ"
                ltac:(discriminate)) as [Hp _].
  rewrite Hp. reflexivity.
Defined.

(** ** Seen symbols and positions *)

Lemma seen_iff_position_row row conv ticks st :
  (forall symbol,
      is_Some (symbol_occurrence_tracker st !! symbol)
      <-> is_Some (historical_positions st !! symbol)) ->
  forall symbol,
    is_Some (symbol_occurrence_tracker
               (fst (from_original_data row conv ticks st)) !! symbol)
    <-> is_Some (historical_positions
                   (fst (from_original_data row conv ticks st)) !! symbol).
Proof.
  intros Hinv symbol.
  rewrite seen_after_row, from_original_data_positions, Hinv.
  destruct (row_effect row) as [effect|]; simpl.
  - destruct (decide (Orders_OrderFills_SymbolCommodity row = symbol))
      as [<- | Hne].
    + rewrite lookup_insert_eq. split; eauto.
    + rewrite lookup_insert_ne by exact Hne. split; [|auto].
      intros [H | [H _]]; [exact H | contradiction].
  - split; [|auto]. intros [H | [_ H]]; [exact H | discriminate].
Qed.

Lemma seen_iff_position_rows conv ticks rows : forall st,
  (forall symbol,
      is_Some (symbol_occurrence_tracker st !! symbol)
      <-> is_Some (historical_positions st !! symbol)) ->
  forall symbol,
    is_Some (symbol_occurrence_tracker (state_after conv ticks st rows) !! symbol)
    <-> is_Some (historical_positions (state_after conv ticks st rows) !! symbol).
Proof.
  induction rows as [|row rest IH]; intros st Hinv; [exact Hinv|].
  rewrite state_after_cons. apply IH. apply seen_iff_position_row. exact Hinv.
Qed.

(** Throughout a batch a symbol counts as seen exactly when it has a
    position entry; so an execution classified as a first occurrence
    starts from quantity 0 and its recorded quantity is its own truncated
    effect. *)
Theorem first_occurrence_starts_flat
    conv ticks historical_context before row st' e :
  let st :=
    state_after conv ticks (initial_tracker historical_context) before in
  from_original_data row conv ticks st = (st', Ok e) ->
  (forall symbol,
      is_Some (symbol_occurrence_tracker st !! symbol)
      <-> is_Some (historical_positions st !! symbol))
  /\ (symbol_occurrence_tracker st !! CQGSymbol e = None ->
      Status e = lifecycle_text Open (TickerConversion e)
      /\ numtext_to_int (PositionEffect e) = Ok (PositionQty e)).
Proof.
  intros st H.
  assert (Hinv : forall symbol,
             is_Some (symbol_occurrence_tracker st !! symbol)
             <-> is_Some (historical_positions st !! symbol)).
  { apply seen_iff_position_rows. intros symbol. simpl.
    rewrite lookup_fmap, fmap_is_Some. reflexivity. }
  split; [exact Hinv|].
  destruct (from_original_data_ok _ _ _ _ _ _ H)
    as (effect & acc & _ & Hpe & Hsym & Ht & Hq & Hs & _).
  rewrite Hsym. intros Hnone.
  assert (Hpos : historical_positions st
                   !! Orders_OrderFills_SymbolCommodity row = None).
  { destruct (historical_positions st !! _) eqn:E; [|reflexivity].
    destruct (proj2 (Hinv (Orders_OrderFills_SymbolCommodity row)))
      as [x Hx]; [eauto | congruence]. }
  rewrite Hpos in Hq, Hs. simpl in Hq, Hs.
  rewrite bool_decide_eq_true_2 in Hs by exact Hnone.
  split.
  - rewrite Hs, Ht. reflexivity.
  - rewrite Hpe, Hq. reflexivity.
Qed.

Lemma first_occurrence_starts_flat_witness :
  exists st' e,
    from_original_data (Examples.fill 2 "Sell" (PyInt 3) (PyInt 100)) ∅
      Examples.mes_ticks
      (state_after ∅ Examples.mes_ticks (initial_tracker empty_context) [])
    = (st', Ok e)
    /\ Status e = "To Open MES" /\ PositionQty e = -3.
Proof.
  eexists _, _. split; [vm_compute; reflexivity|].
  edestruct (first_occurrence_starts_flat ∅ Examples.mes_ticks empty_context []
               (Examples.fill 2 "Sell" (PyInt 3) (PyInt 100)))
    as [_ Hfirst]; [vm_compute; reflexivity|].
  destruct Hfirst as [Hs Hq]; [reflexivity|].
  split; [exact Hs | reflexivity].
Defined.
(** ** Closing executions *)

Lemma contains_to_close_prefix ticker :
  Text.contains "To Close" ("To Close " +:+ ticker) = true.
Proof. reflexivity. Qed.

(** An execution has the closing status exactly when its symbol was seen
    before and its new quantity is 0; it then carries a realized P&L and
    leaves the symbol's position at 0. *)
Theorem close_status_iff row conv ticks st st' e :
  from_original_data row conv ticks st = (st', Ok e) ->
  (Status e = lifecycle_text Close (TickerConversion e)
   <-> is_Some (symbol_occurrence_tracker st !! CQGSymbol e)
       /\ PositionQty e = 0)
  /\ (Status e = lifecycle_text Close (TickerConversion e) ->
      is_Some (PnLPerPosition e)
      /\ historical_positions st' !! CQGSymbol e = Some 0).
Proof.
  intros H.
  destruct (from_original_data_ok _ _ _ _ _ _ H)
    as (effect & acc & _ & _ & Hsym & Ht & Hq & Hs & _ & Hpnl & Hpos & _).
  rewrite <- Hq, <- Ht in Hs. rewrite <- Hq in Hpos. rewrite Hsym.
  assert (Hiff : Status e = lifecycle_text Close (TickerConversion e)
                 <-> is_Some (symbol_occurrence_tracker st
                                !! Orders_OrderFills_SymbolCommodity row)
                     /\ PositionQty e = 0).
  { rewrite Hs. unfold status_text, lifecycle_text.
    case_bool_decide as Hfirst.
    - split.
      + intros Heq. exfalso. revert Heq. unfold String.app. simpl. congruence.
      + intros [[x Hx] _]. congruence.
    - destruct (Z.eqb_spec (PositionQty e) 0) as [Hz | Hnz].
      + split; [|reflexivity]. intros _. split; [|exact Hz].
        destruct (symbol_occurrence_tracker st !! _); [eauto | contradiction].
      + split; [|intros [_ Hz]; contradiction].
        destruct (default 0 (historical_positions st !! _) =? 0);
          unfold String.app; simpl; congruence. }
  split; [exact Hiff|].
  intros Hclose. pose proof (proj1 Hiff Hclose) as [_ Hz].
  rewrite Hpnl, Hclose. simpl lifecycle_text.
  rewrite contains_to_close_prefix, Hz. simpl.
  split; [eauto|]. rewrite Hpos, Hz. apply lookup_insert_eq.
Qed.

Lemma close_status_iff_witness :
  exists st' e,
    from_original_data (Examples.fill 2 "Sell" (PyInt 2) (PyInt 110)) ∅
      Examples.mes_ticks
      {| historical_positions := {["MES" := 2]};
         symbol_occurrence_tracker := {["MES" := 1]};
         pnl_accumulators := ∅ |}
    = (st', Ok e)
    /\ is_Some (PnLPerPosition e)
    /\ historical_positions st' !! CQGSymbol e = Some 0.
Proof.
  eexists _, _. split; [vm_compute; reflexivity|].
  edestruct (close_status_iff (Examples.fill 2 "Sell" (PyInt 2) (PyInt 110)) ∅
               Examples.mes_ticks
               {| historical_positions := {["MES" := 2]};
                  symbol_occurrence_tracker := {["MES" := 1]};
                  pnl_accumulators := ∅ |}) as [_ Hclose];
    [vm_compute; reflexivity|].
  apply Hclose. reflexivity.
Defined.

(** ** Rows that are dropped *)

Lemma from_original_data_fields row conv ticks st st' e :
  from_original_data row conv ticks st = (st', Ok e) ->
  DBKey e = parse_decimal (Orders_Transactions_TransactionID row)
  /\ Date e = format_date (Orders_Transactions_When_Ms row)
  /\ Time e = format_time (Orders_Transactions_When_Ms row)
  /\ TradingDay e = format_trading_date (Orders_OrderFills_TradeDate row)
  /\ Side e = Orders_OrderFills_Side row
  /\ Quantity e = parse_decimal (Orders_OrderFills_Size row)
  /\ ExecutionPrice e = parse_decimal (Orders_OrderFills_Price row).
Proof.
  intros H. unfold from_original_data in H.
  destruct (calculate_position_effect _ _) as [pe|]; simpl in H; [|congruence].
  destruct (numtext_to_int pe) as [effect|]; simpl in H; [|congruence].
  destruct (Dec.add _ _) as [acc|]; [|congruence].
  injection H as <- <-. simpl. repeat split; reflexivity.
Qed.

Lemma is_valid_needs e :
  is_valid e = true ->
  numtext_falsy (DBKey e) = false /\ Date e <> "" /\ Time e <> ""
  /\ TradingDay e <> "" /\ CQGSymbol e <> "" /\ Side e <> "".
Proof.
  unfold is_valid.
  destruct (numtext_falsy (DBKey e)); [discriminate|].
  destruct (String.eqb_spec (Date e) ""); [discriminate|].
  destruct (String.eqb_spec (Time e) ""); [discriminate|].
  destruct (String.eqb_spec (TradingDay e) ""); [discriminate|].
  destruct (String.eqb_spec (CQGSymbol e) ""); [discriminate|].
  destruct (String.eqb_spec (Side e) ""); [discriminate|].
  auto 10.
Qed.

(** A row without execution time, trade date, transaction id, symbol or
    side adds nothing to the output, yet when its size converts its
    position effect is applied to the symbol's running position all the
    same: later rows of the batch see it. *)
Theorem dropped_row_still_moves_position row conv ticks st effect :
  Orders_Transactions_When_Ms row = None
  \/ Orders_OrderFills_TradeDate row = None
  \/ numtext_falsy (parse_decimal (Orders_Transactions_TransactionID row)) = true
  \/ Orders_OrderFills_SymbolCommodity row = ""
  \/ Orders_OrderFills_Side row = "" ->
  row_effect row = Ok effect ->
  emitted (snd (from_original_data row conv ticks st)) = None
  /\ historical_positions (fst (from_original_data row conv ticks st))
       !! Orders_OrderFills_SymbolCommodity row
     = Some (default 0 (historical_positions st
                          !! Orders_OrderFills_SymbolCommodity row) + effect).
Proof.
  intros Hmiss Heff. split.
  - destruct (from_original_data row conv ticks st) as [st' [e|]] eqn:E;
      [|reflexivity].
    simpl. destruct (is_valid e) eqn:Hv; [exfalso|reflexivity].
    destruct (is_valid_needs e Hv) as (Hk & Hd & Ht & Htd & Hs & Hside).
    destruct (from_original_data_fields _ _ _ _ _ _ E)
      as (Fk & Fd & Ft & Ftd & Fside & _).
    destruct (from_original_data_ok _ _ _ _ _ _ E)
      as (? & ? & _ & _ & Fsym & _).
    destruct Hmiss as [Hm | [Hm | [Hm | [Hm | Hm]]]].
    + apply Hd. rewrite Fd, Hm. reflexivity.
    + apply Htd. rewrite Ftd, Hm. reflexivity.
    + congruence.
    + congruence.
    + congruence.
  - rewrite from_original_data_positions, Heff. apply lookup_insert_eq.
Qed.

Lemma dropped_row_still_moves_position_witness :
  let undated :=
    {| Orders_Transactions_TransactionID := PyInt 9;
       Orders_Transactions_When_Ms := None;
       Orders_OrderFills_TradeDate := Examples.fill_time;
       Orders_OrderFills_SymbolCommodity := "MES";
       Orders_OrderFills_Side := "Buy";
       Orders_OrderFills_Size := PyInt 3;
       Orders_OrderFills_Price := PyInt 100 |} in
  emitted (snd (from_original_data undated ∅ Examples.mes_ticks fresh_tracker))
  = None
  /\ historical_positions
       (fst (from_original_data undated ∅ Examples.mes_ticks fresh_tracker))
       !! "MES"
     = Some (0 + 3).
Proof.
  intros undated.
  apply (dropped_row_still_moves_position undated ∅ Examples.mes_ticks
           fresh_tracker 3).
  - left. reflexivity.
  - vm_compute. reflexivity.
Defined.
(** ** Facts about text *)

Lemma contains_char_cons fuel x c s :
  Text.contains_from (S fuel) (String x "") (String c s)
  = if ascii_dec x c then true else Text.contains_from fuel (String x "") s.
Proof.
  cbn [Text.contains_from String.prefix].
  destruct (ascii_dec x c); [|reflexivity].
  destruct s; reflexivity.
Qed.

Lemma contains_char_absent x l :
  Forall (fun c => Ascii.eqb c x = false) l ->
  forall fuel, Text.contains_from fuel (String x "") (Text.text l) = false.
Proof.
  induction 1 as [|c l Hc Hl IH]; intros fuel.
  - destruct fuel; reflexivity.
  - destruct fuel as [|fuel]; [reflexivity|].
    change (Text.text (c :: l)) with (String c (Text.text l)).
    rewrite contains_char_cons.
    destruct (ascii_dec x c) as [-> | _]; [|apply IH].
    rewrite Ascii.eqb_refl in Hc. discriminate.
Qed.

Lemma contains_char_present x a b : forall fuel,
  (length a < fuel)%nat ->
  Text.contains_from fuel (String x "") (Text.text (a ++ x :: b)) = true.
Proof.
  induction a as [|c a IH]; intros fuel Hfuel;
    (destruct fuel as [|fuel]; [simpl in Hfuel; lia|]).
  - change (Text.text ([] ++ x :: b)) with (String x (Text.text b)).
    rewrite contains_char_cons.
    destruct (ascii_dec x x); [reflexivity | contradiction].
  - change (Text.text ((c :: a) ++ x :: b))
      with (String c (Text.text (a ++ x :: b))).
    rewrite contains_char_cons.
    destruct (ascii_dec x c); [reflexivity|].
    apply IH. simpl in Hfuel. lia.
Qed.

Lemma split_aux_absent sep l : forall cur,
  Forall (fun c => Ascii.eqb c sep = false) l ->
  Text.split_aux sep cur l = [Text.text (rev cur ++ l)].
Proof.
  induction l as [|c l IH]; intros cur Hl.
  - rewrite app_nil_r. reflexivity.
  - inversion Hl as [|? ? Hc Hl']; subst.
    cbn [Text.split_aux]. rewrite Hc, IH by exact Hl'.
    cbn [rev]. rewrite <- app_assoc. reflexivity.
Qed.

Lemma split_aux_sep sep rest l : forall cur,
  Forall (fun c => Ascii.eqb c sep = false) l ->
  Text.split_aux sep cur (l ++ sep :: rest)
  = Text.text (rev cur ++ l) :: Text.split_aux sep [] rest.
Proof.
  induction l as [|c l IH]; intros cur Hl.
  - rewrite app_nil_r. cbn [app Text.split_aux].
    rewrite Ascii.eqb_refl. reflexivity.
  - inversion Hl as [|? ? Hc Hl']; subst.
    cbn [app Text.split_aux]. rewrite Hc, IH by exact Hl'.
    cbn [rev]. rewrite <- app_assoc. reflexivity.
Qed.

Lemma text_app a b : Text.text (a ++ b) = Text.text a +:+ Text.text b.
Proof.
  induction a as [|c a IH]; [reflexivity|].
  change (Text.text ((c :: a) ++ b)) with (String c (Text.text (a ++ b))).
  rewrite IH. reflexivity.
Qed.

Lemma length_text l : String.length (Text.text l) = length l.
Proof. induction l as [|c l IH]; simpl; [reflexivity | rewrite IH; reflexivity]. Qed.

Lemma digit_is_no_separator c :
  Text.is_digit c = true ->
  Ascii.eqb c "/" = false /\ Ascii.eqb c " " = false
  /\ Ascii.eqb c "-" = false /\ Ascii.eqb c "+" = false
  /\ Ascii.eqb c ":" = false /\ Ascii.eqb c "." = false.
Proof.
  destruct c as [[] [] [] [] [] [] [] []]; intros H; try discriminate H;
    repeat split; reflexivity.
Qed.

(** ** Sizes that do not convert *)

Lemma span_digits_complete s : forall ds,
  Text.span_digits s = (ds, []) ->
  s = ds /\ Forall (fun c => Text.is_digit c = true) ds.
Proof.
  induction s as [|c s IH]; intros ds H; simpl in H.
  - injection H as <-. split; [reflexivity | constructor].
  - destruct (Text.is_digit c) eqn:Hc; [|discriminate].
    destruct (Text.span_digits s) as [ds' rest] eqn:E.
    injection H as <- ->. destruct (IH ds' eq_refl) as [-> Hds].
    split; [reflexivity | constructor; assumption].
Qed.

Lemma digit_not_letter c :
  Text.is_digit c = true ->
  Text.lower_char c = c /\ Text.upper_char c = c
  /\ Ascii.eqb c "-" = false /\ Ascii.eqb c "+" = false
  /\ (if ascii_dec "E" c then true else false) = false.
Proof.
  destruct c as [[] [] [] [] [] [] [] []]; intros H; try discriminate H;
    repeat split; reflexivity.
Qed.

(** Text that reads as an [int] has no letter E. *)
Lemma no_exponent_in_int_text l :
  Forall (fun c => Text.is_digit c = true \/ c = "-"%char \/ c = "+"%char) l ->
  forall fuel,
    Text.contains_from fuel "E" (Text.upper (Text.text l)) = false.
Proof.
  induction 1 as [|c l Hc Hl IH]; intros fuel.
  - destruct fuel; reflexivity.
  - destruct fuel as [|fuel]; [reflexivity|].
    assert (Hup : Text.upper_char c = c /\ "E"%char <> c).
    { destruct Hc as [Hd | [-> | ->]]; [|split; [reflexivity|discriminate]..].
      destruct (digit_not_letter c Hd) as (_ & H1 & _ & _ & H2).
      split; [exact H1|]. intros <-. discriminate H2. }
    destruct Hup as [Hu He].
    change (Text.upper (Text.text (c :: l)))
      with (String (Text.upper_char c) (Text.upper (Text.text l))).
    rewrite Hu, contains_char_cons.
    destruct (ascii_dec "E" c); [contradiction|]. apply IH.
Qed.

Lemma scan_sign_cases s neg r :
  Literal.scan_sign s = (neg, r) ->
  s = r \/ s = ("-"%char :: r) \/ s = ("+"%char :: r).
Proof.
  destruct s as [|c s]; simpl.
  - intros [= <- <-]. left. reflexivity.
  - destruct (Ascii.eqb_spec c "-") as [-> | _].
    + intros [= <- <-]. right. left. reflexivity.
    + destruct (Ascii.eqb_spec c "+") as [-> | _]; intros [= <- <-].
      * right. right. reflexivity.
      * left. reflexivity.
Qed.

Lemma scan_after_sign s neg ds :
  Literal.scan_sign (Text.chars s) = (neg, ds) ->
  ds <> [] ->
  Forall (fun c => Text.is_digit c = true) ds ->
  Literal.scan s = Literal.LNum neg ds [] 0.
Proof.
  intros Hsign Hne Hds. unfold Literal.scan. rewrite Hsign.
  destruct ds as [|c ds]; [contradiction|].
  assert (Hc : Text.is_digit c = true) by (inversion Hds; assumption).
  assert (Hword : forall w,
             String.eqb (Text.lower (Text.text (c :: ds))) w = true ->
             exists c' w', w = String c' w' /\ Text.is_digit c' = true).
  { intros w Hw. apply String.eqb_eq in Hw. subst w.
    change (Text.lower (Text.text (c :: ds)))
      with (String (Text.lower_char c) (Text.lower (Text.text ds))).
    eexists _, _. split; [reflexivity|].
    destruct (digit_not_letter c Hc) as (-> & _). exact Hc. }
  destruct (String.eqb _ "inf") eqn:E1.
  { destruct (Hword _ E1) as (c' & w' & [= <- <-] & Hd). discriminate Hd. }
  destruct (String.eqb _ "infinity") eqn:E2.
  { destruct (Hword _ E2) as (c' & w' & [= <- <-] & Hd). discriminate Hd. }
  destruct (String.eqb _ "nan") eqn:E3.
  { destruct (Hword _ E3) as (c' & w' & [= <- <-] & Hd). discriminate Hd. }
  simpl orb. cbv iota.
  rewrite (span_digits_all (c :: ds) Hds). reflexivity.
Qed.

(** Text that [int] reads is text that [Decimal] reads, without E. *)
Lemma int_text_is_decimal_text s z :
  int_of_str s = Ok z ->
  Text.contains "E" (Text.upper s) = false
  /\ exists d, Dec.of_str s = Ok d.
Proof.
  unfold int_of_str. intros H.
  destruct (Literal.scan_sign (Text.chars s)) as [neg r] eqn:Hsign.
  destruct (Text.span_digits r) as [ds rest] eqn:Hspan.
  destruct ds as [|c ds]; [discriminate|].
  destruct rest; [|discriminate].
  destruct (span_digits_complete _ _ Hspan) as [-> Hds].
  split.
  - unfold Text.contains.
    rewrite <- (string_of_list_ascii_of_string s).
    apply no_exponent_in_int_text.
    assert (Hall : Forall
                     (fun c => Text.is_digit c = true \/ c = "-"%char
                               \/ c = "+"%char) (c :: ds)).
    { eapply Forall_impl; [exact Hds|]. intros; auto. }
    destruct (scan_sign_cases _ _ _ Hsign) as [Hs | [Hs | Hs]];
      unfold Text.chars in Hs; rewrite Hs; [exact Hall|constructor; auto..].
  - unfold Dec.of_str.
    rewrite (scan_after_sign s neg (c :: ds) Hsign ltac:(discriminate) Hds).
    eauto.
Qed.

(** Text that [parse_decimal] hands back unconverted does not read as an
    [int] either. *)
Lemma unparsed_text_is_no_int value s :
  parse_decimal value = NStr s -> int_of_str s = Raise ValueError.
Proof.
  intros H.
  assert (Hv : value = PyStr s).
  { unfold parse_decimal in H. destruct (isna value); [discriminate|].
    destruct value as [|n|f|t|d]; simpl in H; try discriminate.
    - destruct (Dec.of_str _); discriminate.
    - destruct (Dec.of_str _); discriminate.
    - destruct (Text.contains "E" (Text.upper t)).
      + destruct (Float.of_str t); simpl in H; [|congruence].
        destruct (Dec.of_str _); simpl in H; congruence.
      + simpl in H. destruct (Dec.of_str t); simpl in H; congruence. }
  subst value.
  destruct (int_of_str s) as [z|e] eqn:Hint.
  - exfalso. destruct (int_text_is_decimal_text s z Hint) as [HE [d Hd]].
    unfold parse_decimal in H. simpl in H. rewrite HE, Hd in H. discriminate.
  - unfold int_of_str in Hint.
    destruct (Literal.scan_sign _) as [neg r].
    destruct (Text.span_digits r) as [[|c ds] [|c' rest]];
      congruence.
Qed.

(** A row whose size is text that does not convert raises before any
    dictionary is written: it gives no instance and leaves the tracker
    exactly as it was. *)
Theorem unparsed_size_fails_row_untouched row conv ticks st s :
  parse_decimal (Orders_OrderFills_Size row) = NStr s ->
  exists e,
    from_original_data row conv ticks st = (st, Raise e)
    /\ (e = TypeError \/ e = ValueError).
Proof.
  intros H.
  assert (Heff : exists e, row_effect row = Raise e
                           /\ (e = TypeError \/ e = ValueError)).
  { unfold row_effect, calculate_position_effect. rewrite H.
    destruct (String.eqb _ "sell"); simpl.
    - eauto.
    - rewrite (unparsed_text_is_no_int _ _ H). eauto. }
  destruct Heff as (e & He & Hkind). exists e.
  split; [apply from_original_data_effect_raises; exact He | exact Hkind].
Qed.

Lemma unparsed_size_fails_row_untouched_witness :
  exists e,
    from_original_data (Examples.fill 1 "Buy" (PyStr "two") (PyInt 100)) ∅
      Examples.mes_ticks fresh_tracker
    = (fresh_tracker, Raise e)
    /\ (e = TypeError \/ e = ValueError).
Proof.
  apply (unparsed_size_fails_row_untouched _ ∅ Examples.mes_ticks fresh_tracker
           "two").
  vm_compute. reflexivity.
Defined.

(** ** Cells that are numbers or missing *)

(** An integer cell is converted exactly, whatever its size, and a missing
    cell ([None] or NaN) becomes 0. *)
Theorem parse_decimal_int_and_missing :
  (forall n, parse_decimal (PyInt n) = NDec (DFinite n 0))
  /\ (forall value, isna value = true -> parse_decimal value = NDec Dec.zero).
Proof.
  split.
  - intros n. unfold parse_decimal. simpl. rewrite Decimal_of_str_int.
    reflexivity.
  - intros value H. unfold parse_decimal. rewrite H. reflexivity.
Qed.

Lemma parse_decimal_int_and_missing_witness :
  parse_decimal (PyFloat S754_nan) = NDec Dec.zero.
Proof. apply (proj2 parse_decimal_int_and_missing). reflexivity. Defined.

(** ** Buying and selling the same size *)



(** ** Sequences *)

Lemma chars_app a b :
  Text.chars (a +:+ b) = (Text.chars a ++ Text.chars b)%list.
Proof.
  induction a as [|c a IH]; [reflexivity|].
  change (Text.chars (String c a +:+ b)) with (c :: Text.chars (a +:+ b)).
  rewrite IH. reflexivity.
Qed.

Lemma rsplit_chars_absent sep ds :
  Forall (fun c => Ascii.eqb c sep = false) ds ->
  rsplit_chars sep ds = None.
Proof.
  induction 1 as [|c ds Hc Hds IH]; simpl; [reflexivity|].
  rewrite IH, Hc. reflexivity.
Qed.

Lemma rsplit_chars_last sep ds :
  Forall (fun c => Ascii.eqb c sep = false) ds ->
  forall a, rsplit_chars sep (a ++ sep :: ds) = Some (a, ds).
Proof.
  intros Hds. induction a as [|c a IH]; simpl.
  - rewrite (rsplit_chars_absent sep ds Hds), Ascii.eqb_refl. reflexivity.
  - rewrite IH. reflexivity.
Qed.

Lemma contains_dash_app a b : forall fuel,
  (String.length a < fuel)%nat ->
  Text.contains_from fuel "-" (a +:+ String "-" b) = true.
Proof.
  induction a as [|c a IH]; intros fuel Hfuel;
    (destruct fuel as [|fuel]; [simpl in Hfuel; lia|]).
  - change ("" +:+ String "-" b) with (String "-" b).
    rewrite contains_char_cons. reflexivity.
  - change (String c a +:+ String "-" b) with (String c (a +:+ String "-" b)).
    rewrite contains_char_cons.
    destruct (ascii_dec "-" c); [reflexivity|].
    apply IH. simpl in Hfuel. lia.
Qed.

Lemma length_append a b :
  String.length (a +:+ b) = (String.length a + String.length b)%nat.
Proof.
  induction a as [|c a IH]; [reflexivity|].
  change (String.length (String c a +:+ b))
    with (S (String.length (a +:+ b))).
  rewrite IH. reflexivity.
Qed.

(** A ticker, a dash and a natural number read back as that ticker and
    that number, whatever dashes the ticker has. *)
Lemma parse_sequence_text ticker count :
  0 <= count ->
  parse_sequence (ticker +:+ "-" +:+ Text.str_int count)
  = Some (ticker, count).
Proof.
  intros Hcount. unfold parse_sequence, Text.contains.
  change (ticker +:+ "-" +:+ Text.str_int count)
    with (ticker +:+ String "-" (Text.str_int count)).
  rewrite contains_dash_app by (rewrite length_append; simpl; lia).
  pose proof (int_of_str_int count) as Hint.
  unfold Text.str_int in *.
  destruct (Z.ltb_spec count 0) as [Hneg | _]; [lia|].
  destruct (digits_spec count Hcount) as (ds & Hd & Hne & Hds & Hv).
  unfold rsplit. rewrite chars_app.
  change (Text.chars (String "-" (Text.digits count)))
    with ("-"%char :: Text.chars (Text.digits count)).
  rewrite rsplit_chars_last.
  - unfold Text.text, Text.chars.
    rewrite !string_of_list_ascii_of_string, Hint. reflexivity.
  - rewrite Hd. unfold Text.text, Text.chars.
    rewrite list_ascii_of_string_of_list_ascii.
    eapply Forall_impl; [exact Hds|]. intros c Hc. apply (digit_is_no_separator c Hc).
Qed.

Lemma if_decide_bool {A} (b : bool) (x y : A) :
  (if decide (Is_true b) is left _ then x else y) = if b then x else y.
Proof.
  destruct b; destruct (decide _) as [H|H]; try reflexivity.
  - destruct H. exact I.
  - destruct H.
Qed.

Lemma sequence_counters_spec ticker l : forall counters,
  ticker <> "" ->
  default 0 (sequence_counters counters l !! ticker)
  = default 0 (counters !! ticker) + Z.of_nat (length (filter (opens ticker) l)).
Proof.
  induction l as [|trade rest IH]; intros counters Hticker.
  - simpl. lia.
  - cbn [sequence_counters]. rewrite IH by assumption.
    rewrite filter_cons, if_decide_bool.
    set (tk := default "" (q_TickerConversion trade)).
    replace (opens ticker trade)
      with (String.eqb tk ticker
            && Text.contains "To Open" (default "" (q_Status trade)))
      by reflexivity.
    destruct (Text.contains "To Open" (default "" (q_Status trade)));
      [|rewrite !andb_false_r; reflexivity].
    rewrite !andb_true_r.
    destruct (String.eqb_spec tk ticker) as [Heq | Hne].
    + destruct (String.eqb_spec tk "") as [Hempty | _]; [congruence|].
      cbn [negb]. rewrite Heq, lookup_insert_eq. cbn [default length id]. lia.
    + destruct (negb _); [|reflexivity].
      rewrite lookup_insert_ne by assumption. reflexivity.
Qed.

Lemma sequence_counters_no_empty_ticker l : forall counters,
  counters !! "" = None -> sequence_counters counters l !! "" = None.
Proof.
  induction l as [|trade rest IH]; intros counters H; [exact H|].
  cbn [sequence_counters]. apply IH.
  destruct (String.eqb_spec (default "" (q_TickerConversion trade)) "")
    as [Hempty | Hfull]; cbn [negb andb]; [exact H|].
  destruct (Text.contains _ _); [|exact H].
  rewrite lookup_insert_ne by assumption. exact H.
Qed.

(** The counter of a ticker is the number of persisted trades of that
    ticker whose status says To Open; no counter is kept for trades
    without a ticker. *)
Theorem sequence_counters_count_opens sorted_trades ticker :
  ticker <> "" ->
  default 0 (_calculate_sequence_counters sorted_trades !! ticker)
  = Z.of_nat (length (filter (opens ticker) sorted_trades))
  /\ _calculate_sequence_counters sorted_trades !! "" = None.
Proof.
  intros Hticker. unfold _calculate_sequence_counters. split.
  - rewrite sequence_counters_spec by assumption.
    rewrite lookup_empty. simpl. lia.
  - apply sequence_counters_no_empty_ticker, lookup_empty.
Qed.

Lemma sequence_counters_count_opens_witness :
  default 0
    (_calculate_sequence_counters
       [ {| q_Status := Some "To Open MES"; q_TickerConversion := Some "MES";
            q_Sequence := None |};
         {| q_Status := Some "To Close MES"; q_TickerConversion := Some "MES";
            q_Sequence := None |};
         {| q_Status := Some "To Open MES"; q_TickerConversion := Some "MES";
            q_Sequence := None |} ] !! "MES")
  = 2.
Proof.
  refine (eq_trans (proj1 (sequence_counters_count_opens _ "MES" _)) _).
  - discriminate.
  - reflexivity.
Defined.

(** The sequence text [calculate_sequence_for_trade] returns reads back,
    through the parsing of [_get_max_sequence_numbers], as the ticker and
    the counter the call left for it; an opening trade has moved that
    counter up by one. *)
Theorem sequence_text_reads_back ticker status counters :
  0 <= default 0 (counters !! ticker) ->
  let '(counters', text) :=
    calculate_sequence_for_trade ticker status counters in
  parse_sequence text = Some (ticker, default 0 (counters' !! ticker))
  /\ default 0 (counters' !! ticker)
     = default 0 (counters !! ticker)
       + (if Text.contains "To Open" status then 1 else 0).
Proof.
  intros Hcount. unfold calculate_sequence_for_trade.
  destruct (Text.contains "To Open" status).
  - rewrite lookup_insert_eq. cbn [default id].
    split; [apply parse_sequence_text; lia | reflexivity].
  - split; [apply parse_sequence_text; exact Hcount | lia].
Qed.

Lemma sequence_text_reads_back_witness :
  parse_sequence
    (snd (calculate_sequence_for_trade "BRK-B" "To Open BRK-B" {["BRK-B" := 4]}))
  = Some ("BRK-B", 5).
Proof.
  pose proof (sequence_text_reads_back "BRK-B" "To Open BRK-B" {["BRK-B" := 4]})
    as H.
  destruct (calculate_sequence_for_trade _ _ _) as [counters' text] eqn:E.
  destruct H as [H _]; [vm_compute; discriminate|].
  injection E as <- <-. exact H.
Defined.

Lemma max_sequences_spec ticker l : forall acc,
  match max_sequences acc l !! ticker with
  | Some m =>
      (acc !! ticker = Some m
       \/ exists trade, trade ∈ l /\ sequence_of trade = Some (ticker, m))
      /\ (forall k, acc !! ticker = Some k -> k <= m)
      /\ (forall trade n,
            trade ∈ l -> sequence_of trade = Some (ticker, n) -> n <= m)
  | None =>
      acc !! ticker = None
      /\ forall trade n, trade ∈ l -> sequence_of trade <> Some (ticker, n)
  end.
Proof.
  induction l as [|trade rest IH]; intros acc.
  - cbn [max_sequences]. destruct (acc !! ticker) as [m|] eqn:Hacc.
    + split; [left; reflexivity|]. split.
      * intros k [= <-]. lia.
      * intros t n Ht. inversion Ht.
    + split; [reflexivity|]. intros t n Ht. inversion Ht.
  - cbn [max_sequences].
    set (acc' := match default (PyStr "") (q_Sequence trade) with
                 | PyStr sequence => _
                 | _ => acc
                 end).
    (* what one turn of the loop does to the entry of [ticker] *)
    assert (Hstep :
      match sequence_of trade with
      | Some (t, n) =>
          if String.eqb t ticker then
            acc' !! ticker
            = Some (match acc !! ticker with
                    | Some k => Z.max k n
                    | None => n
                    end)
          else acc' !! ticker = acc !! ticker
      | None => acc' !! ticker = acc !! ticker
      end).
    { subst acc'. unfold sequence_of.
      destruct (q_Sequence trade) as [[| | |s|]|]; cbn [default from_option id];
        try reflexivity.
      - destruct (String.eqb_spec s "") as [-> | _]; [reflexivity|].
        destruct (parse_sequence s) as [[t n]|]; [|reflexivity].
        destruct (String.eqb_spec t ticker) as [-> | Hne].
        + destruct (acc !! ticker) as [k|] eqn:Hk.
          * destruct (Z.ltb_spec k n).
            -- rewrite lookup_insert_eq. f_equal. lia.
            -- rewrite Hk. f_equal. lia.
          * rewrite lookup_insert_eq. reflexivity.
        + destruct (acc !! t) as [k|].
          * destruct (k <? n); [|reflexivity].
            rewrite lookup_insert_ne by assumption. reflexivity.
          * rewrite lookup_insert_ne by assumption. reflexivity. }
    clearbody acc'. specialize (IH acc').
    destruct (max_sequences acc' rest !! ticker) as [m|].
    + destruct IH as (Hwhere & Hacc & Hrest).
      destruct (sequence_of trade) as [[t n]|] eqn:Hseq.
      * destruct (String.eqb_spec t ticker) as [-> | Hne].
        -- assert (Hm : match acc !! ticker with
                         | Some k => Z.max k n
                         | None => n
                         end <= m) by (apply Hacc; exact Hstep).
           split; [|split].
           ++ destruct Hwhere as [Hw | (u & Hu & Hsu)].
              ** rewrite Hstep in Hw. injection Hw as Hw.
                 destruct (acc !! ticker) as [k|].
                 --- destruct (Z.max_spec k n) as [[_ Hmax] | [_ Hmax]];
                       rewrite Hmax in Hw; subst m.
                     +++ right. exists trade. split; [left | exact Hseq].
                     +++ left. reflexivity.
                 --- subst m. right. exists trade. split; [left | exact Hseq].
              ** right. exists u. split; [right; exact Hu | exact Hsu].
           ++ intros k Hk. rewrite Hk in Hm. lia.
           ++ intros u j Hu Hsu. apply elem_of_cons in Hu as [-> | Hu].
              ** rewrite Hseq in Hsu. injection Hsu as <-.
                 destruct (acc !! ticker); lia.
              ** eapply Hrest; eassumption.
        -- split; [|split].
           ++ destruct Hwhere as [Hw | (u & Hu & Hsu)].
              ** left. rewrite <- Hstep. exact Hw.
              ** right. exists u. split; [right; exact Hu | exact Hsu].
           ++ intros k Hk. apply Hacc. rewrite Hstep. exact Hk.
           ++ intros u j Hu Hsu. apply elem_of_cons in Hu as [-> | Hu].
              ** rewrite Hseq in Hsu. congruence.
              ** eapply Hrest; eassumption.
      * split; [|split].
        -- destruct Hwhere as [Hw | (u & Hu & Hsu)].
           ++ left. rewrite <- Hstep. exact Hw.
           ++ right. exists u. split; [right; exact Hu | exact Hsu].
        -- intros k Hk. apply Hacc. rewrite Hstep. exact Hk.
        -- intros u j Hu Hsu. apply elem_of_cons in Hu as [-> | Hu].
           ++ rewrite Hseq in Hsu. discriminate.
           ++ eapply Hrest; eassumption.
    + destruct IH as (Hacc & Hrest).
      destruct (sequence_of trade) as [[t n]|] eqn:Hseq.
      * destruct (String.eqb_spec t ticker) as [-> | Hne].
        -- rewrite Hstep in Hacc. discriminate.
        -- split; [rewrite <- Hstep; exact Hacc|].
           intros u j Hu. apply elem_of_cons in Hu as [-> | Hu].
           ++ rewrite Hseq. congruence.
           ++ apply Hrest. exact Hu.
      * split; [rewrite <- Hstep; exact Hacc|].
        intros u j Hu. apply elem_of_cons in Hu as [-> | Hu].
        -- rewrite Hseq. discriminate.
        -- apply Hrest. exact Hu.
Qed.

(** The number kept for a ticker is the largest number among the trades
    whose sequence reads as that ticker, and a ticker has a number exactly
    when some trade's sequence reads as it. *)
Theorem max_sequence_is_the_largest trades ticker :
  match _get_max_sequence_numbers trades !! ticker with
  | Some m =>
      (exists trade, trade ∈ trades /\ sequence_of trade = Some (ticker, m))
      /\ (forall trade n,
            trade ∈ trades -> sequence_of trade = Some (ticker, n) -> n <= m)
  | None =>
      forall trade n, trade ∈ trades -> sequence_of trade <> Some (ticker, n)
  end.
Proof.
  unfold _get_max_sequence_numbers.
  pose proof (max_sequences_spec ticker trades ∅) as H.
  destruct (max_sequences ∅ trades !! ticker) as [m|].
  - destruct H as ([Hempty | Hsome] & _ & Hmax).
    + rewrite lookup_empty in Hempty. discriminate.
    + split; assumption.
  - apply H.
Qed.
(** ** Commissions *)



(** ** Items for the table *)

(** [to_dynamodb_dict] succeeds exactly when the key converts to an
    integer. The item then carries the key unchanged, the position
    quantity as the decimal of the same integer, and an [executionId]
    that reads back as the integer part of the key. *)
Theorem execution_id_is_integer_key e :
  match numtext_to_int (DBKey e) with
  | Ok key =>
      exists item,
        to_dynamodb_dict e = Ok item
        /\ int_of_str (i_executionId item) = Ok key
        /\ i_DBKey item = DBKey e
        /\ i_PositionQty item = DFinite (PositionQty e) 0
  | Raise x => to_dynamodb_dict e = Raise x
  end.
Proof.
  unfold to_dynamodb_dict. cbn [py_str]. rewrite Decimal_of_str_int.
  cbn [mbind result_bind Py.bind].
  destruct (numtext_to_int (DBKey e)) as [key|x]; [|reflexivity].
  eexists. split; [reflexivity|]. cbn [i_executionId i_DBKey i_PositionQty].
  split; [apply int_of_str_int|]. split; reflexivity.
Qed.

Lemma fresh_row_opens row conv st' e :
  from_original_data row conv ∅ fresh_tracker = (st', Ok e) ->
  row_effect row = Ok (PositionQty e)
  /\ Status e = "To Open " +:+ TickerConversion e
  /\ NotionalValue e = Dec.zero.
Proof.
  intros H.
  destruct (from_original_data_ok _ _ _ _ _ _ H)
    as (effect & acc & Heff & _ & _ & Ht & Hq & Hs & _).
  cbn in Hq, Hs. rewrite lookup_empty in Hq. cbn in Hq.
  split; [rewrite Hq; exact Heff|]. split.
  - rewrite Hs, Ht. reflexivity.
  - unfold from_original_data in H.
    destruct (calculate_position_effect _ _) as [pe|]; simpl in H; [|congruence].
    destruct (numtext_to_int pe) as [z|]; simpl in H; [|congruence].
    destruct (Dec.add _ _); [|congruence].
    injection H as _ <-. reflexivity.
Qed.

Lemma transform_rows_spec conv rows : forall acc items item,
  transform_rows conv acc rows = Ok items ->
  item ∈ items ->
  item ∈ acc
  \/ exists row st' e,
       row ∈ rows
       /\ from_original_data row conv ∅ fresh_tracker = (st', Ok e)
       /\ to_dynamodb_dict e = Ok item.
Proof.
  induction rows as [|row rest IH]; intros acc items item H Hin.
  - injection H as <-. left. exact Hin.
  - cbn [transform_rows] in H.
    destruct (from_original_data row conv ∅ fresh_tracker) as [st' [e|x]] eqn:E;
      [|discriminate].
    cbn [snd mbind result_bind Py.bind] in H.
    assert (Hrest : forall acc',
               transform_rows conv acc' rest = Ok items ->
               item ∈ acc'
               \/ exists row0 st0 e0,
                    row0 ∈ row :: rest
                    /\ from_original_data row0 conv ∅ fresh_tracker = (st0, Ok e0)
                    /\ to_dynamodb_dict e0 = Ok item).
    { intros acc' H'. destruct (IH _ _ _ H' Hin) as [Ha | (r & s & x & Hr & Hx)].
      - left. exact Ha.
      - right. exists r, s, x. split; [right; exact Hr | exact Hx]. }
    destruct (is_valid e).
    + destruct (to_dynamodb_dict e) as [it|] eqn:Eit; [|discriminate].
      cbn [mbind result_bind Py.bind] in H.
      destruct (Hrest _ H) as [Ha | Hex]; [|right; exact Hex].
      apply elem_of_app in Ha as [Ha | Hlast]; [left; exact Ha|].
      apply list_elem_of_singleton in Hlast. subst it.
      right. exists row, st', e. split; [left|]. split; [exact E | exact Eit].
    + destruct (Hrest _ H) as [Ha | Hex]; [left; exact Ha | right; exact Hex].
Qed.

(** [transform_dataframe] starts every row from empty dictionaries: each
    item it returns is an opening execution whose position quantity is the
    truncated effect of its own row, with notional value 0, whatever rows
    came before. *)
Theorem transform_dataframe_rows_are_independent rows conv items item :
  transform_dataframe rows conv = Ok items ->
  item ∈ items ->
  exists row effect,
    row ∈ rows
    /\ row_effect row = Ok effect
    /\ i_PositionQty item = DFinite effect 0
    /\ i_Status item = "To Open " +:+ i_TickerConversion item
    /\ i_NotionalValue item = Dec.zero.
Proof.
  intros H Hin.
  destruct (transform_rows_spec _ _ _ _ _ H Hin)
    as [Hnil | (row & st' & e & Hrow & He & Hitem)]; [inversion Hnil|].
  destruct (fresh_row_opens _ _ _ _ He) as (Heff & Hs & Hn).
  exists row, (PositionQty e). split; [exact Hrow|]. split; [exact Heff|].
  unfold to_dynamodb_dict in Hitem. cbn [py_str] in Hitem.
  rewrite Decimal_of_str_int in Hitem. cbn [mbind result_bind Py.bind] in Hitem.
  destruct (numtext_to_int (DBKey e)); [|discriminate].
  injection Hitem as <-. cbn. rewrite Hs, Hn. auto.
Qed.

Lemma transform_dataframe_rows_are_independent_witness :
  let item :=
    {| i_DBKey := NDec (DFinite 2 0);
       i_Date := "03/05/2024"; i_Time := "09:30:01.123";
       i_TradingDay := "2024-03-05";
       i_TickerConversion := "MES"; i_CQGSymbol := "MES"; i_Side := "Sell";
       i_Quantity := NDec (DFinite 2 0);
       i_PositionEffect := NDec (DFinite (-2) 0);
       i_ExecutionPrice := NDec (DFinite 110 0);
       i_NotionalValue := Dec.zero;
       i_PositionQty := DFinite (-2) 0;
       i_Status := "To Open MES";
       i_PnLPerPosition := None;
       i_executionId := "2" |} in
  let rows := [Examples.fill 1 "Buy" (PyInt 2) (PyInt 100);
               Examples.fill 2 "Sell" (PyInt 2) (PyInt 110)] in
  exists row effect,
    row ∈ rows
    /\ row_effect row = Ok effect
    /\ i_PositionQty item = DFinite effect 0
    /\ i_Status item = "To Open " +:+ i_TickerConversion item
    /\ i_NotionalValue item = Dec.zero.
Proof.
  intros item rows.
  apply (transform_dataframe_rows_are_independent rows ∅
           [ {| i_DBKey := NDec (DFinite 1 0);
                i_Date := "03/05/2024"; i_Time := "09:30:01.123";
                i_TradingDay := "2024-03-05";
                i_TickerConversion := "MES"; i_CQGSymbol := "MES";
                i_Side := "Buy";
                i_Quantity := NDec (DFinite 2 0);
                i_PositionEffect := NDec (DFinite 2 0);
                i_ExecutionPrice := NDec (DFinite 100 0);
                i_NotionalValue := Dec.zero;
                i_PositionQty := DFinite 2 0;
                i_Status := "To Open MES";
                i_PnLPerPosition := None;
                i_executionId := "1" |};
             item ] item).
  - vm_compute. reflexivity.
  - right. left.
Defined.

Lemma transform_rows_raises conv rows row x :
  row ∈ rows -> row_effect row = Raise x ->
  forall acc, exists x', transform_rows conv acc rows = Raise x'.
Proof.
  intros Hin Hx. induction rows as [|r rest IH]; [inversion Hin|].
  intros acc. cbn [transform_rows].
  destruct (from_original_data r conv ∅ fresh_tracker) as [st' [e|y]] eqn:E;
    [|eexists; reflexivity].
  cbn [snd mbind result_bind Py.bind].
  assert (Hrest : row ∈ rest).
  { apply elem_of_cons in Hin as [-> | Hin]; [|exact Hin].
    rewrite (from_original_data_effect_raises _ _ _ _ _ Hx) in E. discriminate. }
  destruct (is_valid e).
  - destruct (to_dynamodb_dict e); [|eexists; reflexivity].
    cbn [mbind result_bind Py.bind]. apply IH. exact Hrest.
  - apply IH. exact Hrest.
Qed.

(** Where the batch converter drops a row whose size does not convert and
    goes on, [transform_dataframe] catches nothing: one such row anywhere
    in the frame makes the whole call raise. *)
Theorem transform_dataframe_fails_on_bad_row rows conv ticks st row x :
  row ∈ rows ->
  row_effect row = Raise x ->
  (exists x', transform_dataframe rows conv = Raise x')
  /\ emitted (snd (from_original_data row conv ticks st)) = None.
Proof.
  intros Hin Hx. split.
  - apply (transform_rows_raises conv rows row x Hin Hx).
  - rewrite (from_original_data_effect_raises _ _ _ _ _ Hx). reflexivity.
Qed.

Lemma transform_dataframe_fails_on_bad_row_witness :
  exists x',
    transform_dataframe
      [Examples.fill 1 "Buy" (PyInt 2) (PyInt 100);
       Examples.fill 2 "Sell" (PyStr "two") (PyInt 110)] ∅ = Raise x'.
Proof.
  apply (transform_dataframe_fails_on_bad_row _ ∅ ∅ fresh_tracker
           (Examples.fill 2 "Sell" (PyStr "two") (PyInt 110)) TypeError).
  - right. left.
  - vm_compute. reflexivity.
Defined.

(** ** Truncating twice *)

Lemma scan_last_close_drop l : forall n i,
  scan_last_close l n = Ok (Some i) ->
  scan_last_close (drop (S i) l) (n - S i) = Ok None.
Proof.
  induction n as [|n IH]; intros i H; [discriminate|].
  pose proof (scan_last_close_bound l (S n) i H) as Hbound.
  cbn [scan_last_close] in H.
  destruct (l !! n) as [t|] eqn:Ht; [|discriminate].
  destruct (decide (i = n)) as [-> | Hne].
  { replace (S n - S n)%nat with 0%nat by lia. reflexivity. }
  replace (S n - S i)%nat with (S (n - S i)) by lia.
  cbn [scan_last_close]. rewrite lookup_drop.
  replace (S i + (n - S i))%nat with n by lia. rewrite Ht.
  destruct (t_PositionQty t) as [q|].
  - destruct (Dec.to_int q) as [z|]; [|discriminate].
    cbn [mbind result_bind Py.bind] in *.
    destruct ((z =? 0) && _).
    + injection H as H. lia.
    + apply IH. exact H.
  - apply IH. exact H.
Qed.

(** Truncating an already truncated history changes nothing. *)
Theorem truncation_is_idempotent sorted_trades since :
  _get_trades_since_last_close sorted_trades = Ok since ->
  _get_trades_since_last_close since = Ok since.
Proof.
  intros H. pose proof H as H0.
  rewrite get_trades_since_last_close_unfold in H.
  destruct (negb (existsb _ sorted_trades)).
  { injection H as <-. exact H0. }
  destruct (scan_last_close sorted_trades (length sorted_trades))
    as [[i|]|] eqn:Hscan; cbn [mbind result_bind Py.bind] in H;
    [|injection H as <-; exact H0|discriminate].
  injection H as <-.
  rewrite get_trades_since_last_close_unfold.
  destruct (negb (existsb _ (drop (S i) sorted_trades))); [reflexivity|].
  rewrite length_drop, (scan_last_close_drop _ _ _ Hscan). reflexivity.
Qed.

Lemma truncation_is_idempotent_witness :
  _get_trades_since_last_close
    [Examples.persisted 3 2 (DFinite (-1000) 0) 2 "To Open MES"]
  = Ok [Examples.persisted 3 2 (DFinite (-1000) 0) 2 "To Open MES"].
Proof.
  apply (truncation_is_idempotent
           [Examples.persisted 1 2 (DFinite (-1000) 0) 2 "To Open MES";
            Examples.persisted 2 (-2) (DFinite 1100 0) 0 "To Close MES";
            Examples.persisted 3 2 (DFinite (-1000) 0) 2 "To Open MES"]).
  vm_compute. reflexivity.
Defined.
(** ** Dates as the normaliser writes them *)

(** A padded number is digits only, at least as many as the width. *)
Lemma pad_digits width n :
  0 <= n ->
  exists ds,
    pad width n = Text.text ds
    /\ Forall (fun c => Text.is_digit c = true) ds
    /\ (width <= length ds)%nat /\ ds <> [].
Proof.
  intros Hn. destruct (digits_spec n Hn) as (ds & Hd & Hne & Hds & _).
  unfold pad, Text.zfill. rewrite Hd, length_text.
  destruct ds as [|c ds]; [contradiction|].
  change (Text.text (c :: ds)) with (String c (Text.text ds)).
  assert (Hc : Text.is_digit c = true) by (inversion Hds; assumption).
  destruct (digit_is_no_separator c Hc) as (_ & _ & Hminus & Hplus & _).
  rewrite Hplus, Hminus. cbn [orb].
  change (String c (Text.text ds)) with (Text.text (c :: ds)).
  rewrite <- text_app.
  exists (repeat "0"%char (width - length (c :: ds)) ++ c :: ds)%list.
  split; [reflexivity|]. split; [|split].
  - apply Forall_app. split; [|exact Hds].
    apply Forall_forall. intros x Hx. apply list_elem_of_In, repeat_spec in Hx.
    subst x. reflexivity.
  - rewrite length_app, repeat_length. lia.
  - destruct (repeat _ _); discriminate.
Qed.

Lemma zfill_long width l :
  Forall (fun c => Text.is_digit c = true) l ->
  (width <= length l)%nat ->
  Text.zfill width (Text.text l) = Text.text l.
Proof.
  intros Hl Hw. unfold Text.zfill. rewrite length_text.
  replace (width - length l)%nat with 0%nat by lia.
  destruct l as [|c l]; [reflexivity|].
  change (Text.text (c :: l)) with (String c (Text.text l)).
  assert (Hc : Text.is_digit c = true) by (inversion Hl; assumption).
  destruct (digit_is_no_separator c Hc) as (_ & _ & Hminus & Hplus & _).
  rewrite Hplus, Hminus. reflexivity.
Qed.

Lemma parse_slashed_date a b c :
  Forall (fun x => Text.is_digit x = true) a -> (2 <= length a)%nat ->
  Forall (fun x => Text.is_digit x = true) b -> (2 <= length b)%nat ->
  Forall (fun x => Text.is_digit x = true) c ->
  _parse_date_for_sort (Text.text a +:+ "/" +:+ Text.text b +:+ "/" +:+ Text.text c)
  = Text.text c +:+ "-" +:+ Text.text a +:+ "-" +:+ Text.text b.
Proof.
  intros Ha La Hb Lb Hc.
  assert (Hno : forall sep,
             (forall x, Text.is_digit x = true -> Ascii.eqb x sep = false) ->
             forall l, Forall (fun x => Text.is_digit x = true) l ->
                       Forall (fun x => Ascii.eqb x sep = false) l).
  { intros sep Hsep l Hl. eapply Forall_impl; [exact Hl | exact Hsep]. }
  assert (Hslash : forall x, Text.is_digit x = true -> Ascii.eqb x "/" = false)
    by (intros x Hx; apply (digit_is_no_separator x Hx)).
  assert (Hspace : forall x, Text.is_digit x = true -> Ascii.eqb x " " = false)
    by (intros x Hx; apply (digit_is_no_separator x Hx)).
  assert (Hdash : forall x, Text.is_digit x = true -> Ascii.eqb x "-" = false)
    by (intros x Hx; apply (digit_is_no_separator x Hx)).
  set (whole := (a ++ "/"%char :: b ++ "/"%char :: c)%list).
  assert (Hw : Text.text a +:+ "/" +:+ Text.text b +:+ "/" +:+ Text.text c
               = Text.text whole).
  { unfold whole. rewrite text_app.
    change (Text.text ("/"%char :: b ++ "/"%char :: c))
      with ("/" +:+ Text.text (b ++ "/"%char :: c)).
    rewrite text_app. reflexivity. }
  rewrite Hw. unfold _parse_date_for_sort.
  assert (Hne : String.eqb (Text.text whole) "" = false).
  { unfold whole. destruct a; [simpl in La; lia | reflexivity]. }
  rewrite Hne.
  assert (Hnodash : Text.contains "-" (Text.text whole) = false).
  { apply contains_char_absent. unfold whole.
    apply Forall_app. split; [apply Hno; assumption|].
    constructor; [reflexivity|].
    apply Forall_app. split; [apply Hno; assumption|].
    constructor; [reflexivity | apply Hno; assumption]. }
  rewrite Hnodash. cbn [andb].
  assert (Hhas : Text.contains "/" (Text.text whole) = true).
  { unfold Text.contains, whole. apply contains_char_present.
    rewrite length_text, length_app. simpl. lia. }
  rewrite Hhas.
  assert (Hfirst : Text.split " " (Text.text whole) = [Text.text whole]).
  { unfold Text.split, Text.chars, Text.text.
    rewrite list_ascii_of_string_of_list_ascii.
    apply (split_aux_absent " " whole []). unfold whole.
    apply Forall_app. split; [apply Hno; assumption|].
    constructor; [reflexivity|].
    apply Forall_app. split; [apply Hno; assumption|].
    constructor; [reflexivity | apply Hno; assumption]. }
  rewrite Hfirst. cbn [hd].
  assert (Hparts : Text.split "/" (Text.text whole)
                   = [Text.text a; Text.text b; Text.text c]).
  { unfold Text.split, Text.chars, Text.text at 1.
    rewrite list_ascii_of_string_of_list_ascii. unfold whole.
    rewrite (split_aux_sep "/" _ a []) by (apply Hno; assumption).
    rewrite (split_aux_sep "/" _ b []) by (apply Hno; assumption).
    rewrite (split_aux_absent "/" c []) by (apply Hno; assumption).
    reflexivity. }
  rewrite Hparts, !zfill_long by assumption. reflexivity.
Qed.

(** The date the normaliser writes (month/day/year) is read by the sort
    key as the ISO date of the same day, and the time it writes is taken
    as it is: sorting by these keys follows the calendar. *)
Theorem written_date_sorts_as_iso (d : datetime) (t : trade) :
  1000 <= year d <= 9999 -> 1 <= month d <= 12 -> 1 <= day d <= 31 ->
  0 <= hour d < 24 -> 0 <= minute d < 60 -> 0 <= second d < 60 ->
  0 <= microsecond d < 1000000 ->
  t_Date t = Some (format_date (Some d)) ->
  t_Time t = Some (format_time (Some d)) ->
  date_time_sort_key t = (format_trading_date (Some d), format_time (Some d)).
Proof.
  intros Hy Hm Hd Hh Hmin Hs Hus HD HT.
  unfold date_time_sort_key. rewrite HD, HT. cbn [default from_option id].
  f_equal.
  - unfold format_date, format_trading_date.
    destruct (pad_digits 2 (month d)) as (a & -> & Ha & La & _); [lia|].
    destruct (pad_digits 2 (day d)) as (b & -> & Hb & Lb & _); [lia|].
    destruct (pad_digits 4 (year d)) as (c & -> & Hc & _); [lia|].
    apply parse_slashed_date; assumption.
  - unfold format_time, _parse_time_for_sort.
    destruct (pad_digits 2 (hour d)) as (a & -> & Ha & _ & Na); [lia|].
    destruct (pad_digits 2 (minute d)) as (b & -> & Hb & _); [lia|].
    destruct (pad_digits 2 (second d)) as (c & -> & Hc & _); [lia|].
    destruct (pad_digits 3 (microsecond d / 1000)) as (m & -> & Hmm & _);
      [apply Z.div_pos; lia|].
    set (whole := (a ++ ":"%char :: b ++ ":"%char :: c ++ "."%char :: m)%list).
    assert (Hw : Text.text a +:+ ":" +:+ Text.text b +:+ ":" +:+ Text.text c
                 +:+ "." +:+ Text.text m = Text.text whole).
    { unfold whole. rewrite text_app.
      change (Text.text (":"%char :: b ++ ":"%char :: c ++ "."%char :: m))
        with (":" +:+ Text.text (b ++ ":"%char :: c ++ "."%char :: m)).
      rewrite text_app.
      change (Text.text (":"%char :: c ++ "."%char :: m))
        with (":" +:+ Text.text (c ++ "."%char :: m)).
      rewrite text_app. reflexivity. }
    rewrite Hw.
    assert (Hne : String.eqb (Text.text whole) "" = false).
    { unfold whole. destruct a; [contradiction | reflexivity]. }
    rewrite Hne.
    assert (Hnospace : Text.contains " " (Text.text whole) = false).
    { assert (Hsp : forall l, Forall (fun x => Text.is_digit x = true) l ->
                              Forall (fun x => Ascii.eqb x " " = false) l).
      { intros l Hl. eapply Forall_impl; [exact Hl|].
        intros x Hx. apply (digit_is_no_separator x Hx). }
      apply contains_char_absent. unfold whole.
      apply Forall_app. split; [apply Hsp; assumption|].
      constructor; [reflexivity|].
      apply Forall_app. split; [apply Hsp; assumption|].
      constructor; [reflexivity|].
      apply Forall_app. split; [apply Hsp; assumption|].
      constructor; [reflexivity | apply Hsp; assumption]. }
    rewrite Hnospace. reflexivity.
Qed.

Lemma written_date_sorts_as_iso_witness :
  date_time_sort_key
    (Examples.persisted 1 2 (DFinite (-1000) 0) 2 "To Open MES")
  = ("2024-03-05", "09:30:01.123").
Proof.
  apply (written_date_sorts_as_iso
           {| year := 2024; month := 3; day := 5; hour := 9; minute := 30;
              second := 1; microsecond := 123456 |}
           (Examples.persisted 1 2 (DFinite (-1000) 0) 2 "To Open MES"));
    first [reflexivity | cbn; lia].
Defined.
(** ** The service's own calculators *)

(** Given the positions as they were before the trade, the service's
    status is the status the tracker gives. Given the dictionary that
    [calculate_position_qty_for_trade] has just updated, the quantity read
    as previous is the new one, so a position that re-opens from flat is
    left without status. *)
Theorem service_status_needs_positions_before
    cqg_symbol ticker_conversion position_effect current_positions
    is_first_occurrence :
  let '(updated_positions, position_qty) :=
    calculate_position_qty_for_trade cqg_symbol position_effect
      current_positions in
  calculate_status_for_trade cqg_symbol ticker_conversion position_qty
    current_positions is_first_occurrence
  = status_text is_first_occurrence
      (default 0 (current_positions !! cqg_symbol)) position_qty
      ticker_conversion
  /\ calculate_status_for_trade cqg_symbol ticker_conversion position_qty
       updated_positions false
     = if position_qty =? 0 then "To Close " +:+ ticker_conversion else "".
Proof.
  unfold calculate_position_qty_for_trade, calculate_status_for_trade,
    status_text.
  split; [reflexivity|].
  rewrite lookup_insert_eq. cbn [default from_option id].
  destruct (_ =? 0); reflexivity.
Qed.

(** ** Realized P&L: an example of a close *)

(** ** Realized P&L over a run *)

Lemma dec_sum_snoc l d :
  dec_sum (l ++ [d]) = (a ← dec_sum l; Dec.add a d).
Proof. unfold dec_sum. rewrite foldl_app. reflexivity. Qed.

(** A row that raises leaves the accumulators as they were. *)
Lemma raising_row_keeps_accumulators row conv ticks st st' x :
  from_original_data row conv ticks st = (st', Raise x) ->
  pnl_accumulators st' = pnl_accumulators st.
Proof.
  unfold from_original_data.
  destruct (calculate_position_effect _ _) as [pe|]; simpl; [|congruence].
  destruct (numtext_to_int pe) as [effect|]; simpl; [|congruence].
  destruct (Dec.add _ _) as [acc|]; [discriminate|].
  intros [= <- _]. reflexivity.
Qed.

(** The accumulator of a ticker is the sum, in order, of the notional
    values of the executions returned for it since its last close. *)
Lemma accumulator_is_open_run_sum conv ticks ticker rows : forall st run,
  dec_sum (map NotionalValue run)
  = Ok (default Dec.zero (pnl_accumulators st !! ticker)) ->
  dec_sum (map NotionalValue
             (open_run_from ticker run (row_results conv ticks st rows)))
  = Ok (default Dec.zero
          (pnl_accumulators (state_after conv ticks st rows) !! ticker)).
Proof.
  induction rows as [|row rest IH]; intros st run Hrun; [exact Hrun|].
  rewrite state_after_cons. cbn [row_results].
  destruct (from_original_data row conv ticks st) as [st1 r] eqn:E.
  cbn [open_run_from fst]. apply IH.
  destruct r as [e|x].
  - destruct (from_original_data_ok _ _ _ _ _ _ E)
      as (effect & acc & _ & _ & _ & Ht & _ & _ & Hadd & Hpnl & _ & _ & Hacc).
    rewrite <- Ht in Hadd, Hacc.
    destruct (String.eqb_spec (TickerConversion e) ticker) as [Heq | Hne].
    + rewrite Heq in Hadd, Hacc. rewrite Hacc, Hpnl.
      destruct (Text.contains "To Close" (Status e) && (PositionQty e =? 0)).
      * rewrite lookup_insert_eq. reflexivity.
      * rewrite lookup_insert_eq, map_app.
        change (map NotionalValue [e]) with [NotionalValue e].
        rewrite dec_sum_snoc, Hrun. exact Hadd.
    + rewrite Hrun. f_equal. f_equal. symmetry.
      pose proof (from_original_data_accumulators row conv ticks st ticker) as Hk.
      rewrite E in Hk. apply Hk. rewrite <- Ht. congruence.
  - rewrite (raising_row_keeps_accumulators _ _ _ _ _ _ E). exact Hrun.
Qed.

(** Within a batch, the realized P&L of an execution is the sum, in order,
    of the notional values of every execution the batch has returned for
    the same converted ticker since that ticker's previous close in the
    batch (or since the start of the batch), this execution included;
    executions later dropped as not valid, and executions of other CQG
    symbols that convert to the same ticker, are in the sum. *)
Theorem close_pnl_sums_the_run conv ticks historical_context before row st' e p :
  from_original_data row conv ticks
    (state_after conv ticks (initial_tracker historical_context) before)
  = (st', Ok e) ->
  PnLPerPosition e = Some p ->
  dec_sum
    (map NotionalValue
       (open_run (TickerConversion e)
          (row_results conv ticks (initial_tracker historical_context) before))
     ++ [NotionalValue e])%list
  = Ok p.
Proof.
  intros E Hp.
  destruct (from_original_data_ok _ _ _ _ _ _ E)
    as (effect & acc & _ & _ & _ & Ht & _ & _ & Hadd & Hpnl & _).
  rewrite <- Ht in Hadd.
  rewrite dec_sum_snoc. unfold open_run.
  rewrite (accumulator_is_open_run_sum conv ticks (TickerConversion e) before
             (initial_tracker historical_context) []) by reflexivity.
  cbn [mbind result_bind Py.bind]. rewrite Hadd. f_equal.
  rewrite Hpnl in Hp. destruct (_ && _); congruence.
Qed.

Lemma close_pnl_sums_the_run_witness :
  dec_sum
    (map NotionalValue
       (open_run "MES"
          (row_results ∅ Examples.mes_ticks (initial_tracker empty_context)
             [Examples.fill 10 "Buy" (PyInt 2) (PyInt 100);
              Examples.fill 11 "Buy" (PyInt 1) (PyInt 104)]))
     ++ [DFinite 1650 0])%list
  = Ok (DFinite 130 0).
Proof.
  eapply (close_pnl_sums_the_run ∅ Examples.mes_ticks empty_context
            [Examples.fill 10 "Buy" (PyInt 2) (PyInt 100);
             Examples.fill 11 "Buy" (PyInt 1) (PyInt 104)]
            (Examples.fill 12 "Sell" (PyInt 3) (PyInt 110))
            _
            {| DBKey := NDec (DFinite 12 0);
               Date := "03/05/2024"; Time := "09:30:01.123";
               TradingDay := "2024-03-05";
               TickerConversion := "MES"; CQGSymbol := "MES"; Side := "Sell";
               Quantity := NDec (DFinite 3 0);
               PositionEffect := NDec (DFinite (-3) 0);
               ExecutionPrice := NDec (DFinite 110 0);
               NotionalValue := DFinite 1650 0;
               PositionQty := 0;
               Status := "To Close MES";
               PnLPerPosition := Some (DFinite 130 0) |}).
  - vm_compute. reflexivity.
  - reflexivity.
Defined.
